(** * Apple Global Sales Dashboard: filter and aggregation pipeline

    A shallow embedding of [app.py].  The script is a straight-line
    pandas pipeline: [load_data] derives the calendar columns, a boolean
    mask built from the sidebar selections yields [df_filtered], and a
    fixed set of aggregations is computed from that frame.

    Conventions of the embedding.
    - A DataFrame is the list of its rows, in index order.
    - A [datetime64] value is its calendar date (year, month, day);
      comparison is chronological, i.e. lexicographic on the fields.
    - Categorical columns are strings (sequences of bytes; the
      lexicographic byte order of UTF-8 text is the code-point order that
      Python uses to compare [str] values).  A missing cell (an empty CSV
      field, which [read_csv] reads as NaN) is written as the empty
      string, a value [read_csv] never yields for a cell that is present.
    - [TotalRevenue] is an integer column ([int64]): the sums the script
      takes wrap around at 64 bits; rounding of binary floating point is
      not part of the model.
    - The pandas operations the script calls ([isin], [between], boolean
      indexing, [unique], [groupby(...).sum()], [sort_values], [head],
      [value_counts], [sum], [mean], [nunique]) are modelled in
      [Module Pandas] with their default arguments, as the script uses
      them. *)

From Stdlib Require Import ZArith List Bool String Ascii Lia.
From Stdlib Require Import Sorted Permutation QArith OrderedTypeEx.
From Stdlib Require Decimal DecimalN.
From Stdlib Require Import DecimalString.
Import ListNotations.

Open Scope string_scope.
Open Scope list_scope.
Open Scope Z_scope.

(** ** Timestamps *)

Record Timestamp := mkTimestamp {
  ts_year  : Z;
  ts_month : Z;
  ts_day   : Z
}.

(** A timestamp names a real calendar month. *)
Definition valid_month (t : Timestamp) : Prop := 1 <= ts_month t <= 12.

Definition ts_compare (a b : Timestamp) : comparison :=
  match ts_year a ?= ts_year b with
  | Eq => match ts_month a ?= ts_month b with
          | Eq => ts_day a ?= ts_day b
          | c => c
          end
  | c => c
  end.

Definition ts_leb (a b : Timestamp) : bool :=
  match ts_compare a b with Gt => false | _ => true end.

Definition ts_le (a b : Timestamp) : Prop := ts_compare a b <> Gt.
Definition ts_lt (a b : Timestamp) : Prop := ts_compare a b = Lt.
Definition ts_gt (a b : Timestamp) : Prop := ts_compare a b = Gt.

(** [Series.dt.quarter]: pandas computes the field as
    [((month - 1) // 3) + 1]. *)
Definition dt_quarter (t : Timestamp) : Z := (ts_month t - 1) / 3 + 1.

Definition dt_year (t : Timestamp) : Z := ts_year t.

(** Decimal digits, for [to_period('M').astype(str)], which prints a
    monthly period as [YYYY-MM]. *)
Definition digit (d : Z) : ascii := ascii_of_nat (48 + Z.to_nat (d mod 10)).

Definition pad2 (n : Z) : string :=
  String (digit (n / 10)) (String (digit n) EmptyString).

Definition pad4 (n : Z) : string :=
  String (digit (n / 1000)) (String (digit (n / 100)) (pad2 n)).

Definition period_M_str (t : Timestamp) : string :=
  (pad4 (ts_year t) ++ "-" ++ pad2 (ts_month t))%string.

(** ceil(a / b) for a positive divisor, through floor division. *)
Definition ceil_div (a b : Z) : Z := - ((- a) / b).

(** ** The pandas operations used by the script *)

Module Pandas.

(** Key types: what [unique], [isin] and the sorted [groupby] need from
    a column's values. *)
Class Key (K : Type) := {
  keqb : K -> K -> bool;
  kleb : K -> K -> bool;
  keqb_spec : forall x y, reflect (x = y) (keqb x y);
  kleb_total : forall x y, kleb x y = true \/ kleb y x = true;
  kleb_trans : forall x y z, kleb x y = true -> kleb y z = true -> kleb x z = true;
  kleb_antisym : forall x y, kleb x y = true -> kleb y x = true -> x = y
}.

Definition klt {K} `{Key K} (x y : K) : Prop := kleb x y = true /\ x <> y.

(** Cell types: which values of a column stand for a missing cell
    ([isna]). *)
Class Cell (K : Type) := {
  isna : K -> bool
}.

Section Columns.
Context {K : Type} `{Key K}.

(** [Series.isin(values)]: element-wise membership by equality. *)
Definition isin (x : K) (values : list K) : bool :=
  existsb (keqb x) values.

(** [Series.unique()]: the distinct values in order of first
    appearance, a missing cell included. *)
Fixpoint unique (col : list K) : list K :=
  match col with
  | [] => []
  | x :: rest => x :: filter (fun y => negb (keqb x y)) (unique rest)
  end.

(** Ascending sort of the group keys ([groupby] has [sort=True] by
    default); the keys it sorts are distinct. *)
Fixpoint insert_key (k : K) (ks : list K) : list K :=
  match ks with
  | [] => [k]
  | k' :: rest => if kleb k k' then k :: ks else k' :: insert_key k rest
  end.

Fixpoint sort_keys (ks : list K) : list K :=
  match ks with
  | [] => []
  | k :: rest => insert_key k (sort_keys rest)
  end.
End Columns.

(** The cells of a column that are present: [nunique], [value_counts]
    and [groupby] all run with [dropna=True], their default. *)
Definition dropna {K : Type} `{Cell K} (col : list K) : list K :=
  filter (fun x => negb (isna x)) col.

(** [Series.nunique()]: the number of distinct values, missing cells
    not counted. *)
Definition nunique {K : Type} `{Key K} `{Cell K} (col : list K) : nat :=
  List.length (unique (dropna col)).

(** Two's-complement wrap-around of [int64] arithmetic. *)
Definition wrap64 (z : Z) : Z := (z + 2 ^ 63) mod 2 ^ 64 - 2 ^ 63.

(** [Series.sum()] of an [int64] column: every addition wraps; the sum
    of an empty column is 0. *)
Definition sum (col : list Z) : Z :=
  fold_right (fun x acc => wrap64 (x + acc)) 0 col.

(** The sum of a column as a number, without wrap-around. *)
Definition exact_sum (col : list Z) : Z := fold_right Z.add 0 col.

(** A float result: a number or NaN. *)
Inductive pyfloat := NaN | Finite (q : Q).

(** [Series.mean()]: pandas adds the column up in floating point (no
    integer wrap-around) and divides by the count when the count is
    positive; it answers NaN otherwise and raises nothing.  [Finite q]
    stands for the float the division yields, [q] being the quotient
    before any rounding; the rounding is not modelled. *)
Definition mean (col : list Z) : pyfloat :=
  match col with
  | [] => NaN
  | _ :: _ => Finite (Qmake (exact_sum col) (Pos.of_nat (List.length col)))
  end.

Section Frames.
Context {R K : Type} `{Key K} `{Cell K}.

(** [df[mask]]: the rows whose mask entry is true, in index order. *)
Definition select (mask : R -> bool) (df : list R) : list R :=
  filter mask df.

(** The rows of one group. *)
Definition group_rows (key : R -> K) (k : K) (df : list R) : list R :=
  filter (fun r => keqb (key r) k) df.

(** The rows whose key cell is present; the others belong to no group. *)
Definition with_key (key : R -> K) (df : list R) : list R :=
  filter (fun r => negb (isna (key r))) df.

(** [df.groupby(key)[val].sum()] followed by [reset_index] (or with
    [as_index=False]): one row per distinct key that is present, keys
    ascending; rows with a missing key are dropped. *)
Definition groupby_sum (key : R -> K) (val : R -> Z) (df : list R)
  : list (K * Z) :=
  map (fun k => (k, sum (map val (group_rows key k df))))
      (sort_keys (unique (dropna (map key df)))).
End Frames.

Section Sorting.
Context {A : Type}.

(** Ascending [argsort] on an integer column.  The script leaves [kind]
    at its default, a quicksort that promises no order among rows of
    equal value; the model fixes one such order, that of an insertion
    sort, and no statement of this file depends on which. *)
Fixpoint insert_by (by_ : A -> Z) (x : A) (l : list A) : list A :=
  match l with
  | [] => [x]
  | y :: rest =>
      if by_ x <=? by_ y then x :: l else y :: insert_by by_ x rest
  end.

Fixpoint sort_asc (by_ : A -> Z) (l : list A) : list A :=
  match l with
  | [] => []
  | x :: rest => insert_by by_ x (sort_asc by_ rest)
  end.

(** [sort_values(by=..., ascending=False)]: pandas reverses the rows,
    sorts them ascending and reverses the outcome. *)
Definition sort_values_desc (by_ : A -> Z) (l : list A) : list A :=
  rev (sort_asc by_ (rev l)).

(** [head(n)]. *)
Definition head (n : nat) (l : list A) : list A := firstn n l.
End Sorting.

(** [Series.value_counts().reset_index()]: one row per distinct value
    that is present, with its number of occurrences, sorted by count,
    largest first. *)
Definition value_counts {K} `{Key K} `{Cell K} (col : list K)
  : list (K * Z) :=
  sort_values_desc snd
    (map (fun k => (k, Z.of_nat (List.length (filter (keqb k) col))))
         (unique (dropna col))).

End Pandas.
Import Pandas.

(** ** Key instances for the column types of the dataset *)

Lemma string_compare_refl (x : string) : String.compare x x = Eq.
Proof. exact (proj2 (String_as_OT.cmp_eq x x) eq_refl). Qed.

Lemma string_leb_trans (x y z : string) :
  String.leb x y = true -> String.leb y z = true -> String.leb x z = true.
Proof.
  unfold String.leb.
  destruct (String.compare x y) eqn:Hxy; try discriminate; intros _;
    destruct (String.compare y z) eqn:Hyz; try discriminate; intros _.
  - apply String.compare_eq_iff in Hxy, Hyz. subst.
    now rewrite string_compare_refl.
  - apply String.compare_eq_iff in Hxy. subst. now rewrite Hyz.
  - apply String.compare_eq_iff in Hyz. subst. now rewrite Hxy.
  - apply String_as_OT.cmp_lt in Hxy, Hyz.
    pose proof (String_as_OT.lt_trans _ _ _ Hxy Hyz) as Hxz.
    apply String_as_OT.cmp_lt in Hxz. unfold String_as_OT.cmp in Hxz.
    now rewrite Hxz.
Qed.

#[export] Instance string_Key : Key string := {
  keqb := String.eqb;
  kleb := String.leb;
  keqb_spec := String.eqb_spec;
  kleb_total := String.leb_total;
  kleb_trans := string_leb_trans;
  kleb_antisym := String.leb_antisym
}.

Lemma Z_leb_total (x y : Z) : (x <=? y) = true \/ (y <=? x) = true.
Proof. lia. Qed.

Lemma Z_leb_trans (x y z : Z) :
  (x <=? y) = true -> (y <=? z) = true -> (x <=? z) = true.
Proof. lia. Qed.

Lemma Z_leb_antisym (x y : Z) :
  (x <=? y) = true -> (y <=? x) = true -> x = y.
Proof. lia. Qed.

#[export] Instance Z_Key : Key Z := {
  keqb := Z.eqb;
  kleb := Z.leb;
  keqb_spec := Z.eqb_spec;
  kleb_total := Z_leb_total;
  kleb_trans := Z_leb_trans;
  kleb_antisym := Z_leb_antisym
}.

(** Two-column keys compare like Python tuples: on the first component,
    then on the second. *)
Section PairKey.
Context {A B : Type} `{Key A} `{Key B}.

Definition pair_eqb (p q : A * B) : bool :=
  keqb (fst p) (fst q) && keqb (snd p) (snd q).

Definition pair_leb (p q : A * B) : bool :=
  if keqb (fst p) (fst q) then kleb (snd p) (snd q) else kleb (fst p) (fst q).

Lemma pair_eqb_spec p q : reflect (p = q) (pair_eqb p q).
Proof.
  destruct p as [a b], q as [c d]. unfold pair_eqb. simpl.
  destruct (keqb_spec a c) as [->|Hn]; simpl.
  - destruct (keqb_spec b d) as [->|Hn]; constructor; congruence.
  - constructor. congruence.
Qed.

Lemma pair_leb_total p q : pair_leb p q = true \/ pair_leb q p = true.
Proof.
  destruct p as [a b], q as [c d]. unfold pair_leb. simpl.
  destruct (keqb_spec a c) as [->|Hn].
  - destruct (keqb_spec c c) as [_|Hn]; [apply kleb_total | congruence].
  - destruct (keqb_spec c a) as [->|_]; [congruence | apply kleb_total].
Qed.

Lemma pair_leb_trans p q r :
  pair_leb p q = true -> pair_leb q r = true -> pair_leb p r = true.
Proof.
  destruct p as [a b], q as [c d], r as [e f]. unfold pair_leb. simpl.
  destruct (keqb_spec a c) as [->|Hac];
    destruct (keqb_spec c e) as [->|Hce]; intros H1 H2.
  - destruct (keqb_spec e e); [eapply kleb_trans; eauto | congruence].
  - destruct (keqb_spec c e); [congruence | assumption].
  - destruct (keqb_spec a e); [congruence | assumption].
  - destruct (keqb_spec a e) as [->|Hae].
    + exfalso. apply Hac. now apply kleb_antisym.
    + eapply kleb_trans; eauto.
Qed.

Lemma pair_leb_antisym p q :
  pair_leb p q = true -> pair_leb q p = true -> p = q.
Proof.
  destruct p as [a b], q as [c d]. unfold pair_leb. simpl.
  destruct (keqb_spec a c) as [->|Hac].
  - destruct (keqb_spec c c); [|congruence].
    intros H1 H2. f_equal. now apply kleb_antisym.
  - destruct (keqb_spec c a); [congruence|].
    intros H1 H2. exfalso. apply Hac. now apply kleb_antisym.
Qed.

#[export] Instance pair_Key : Key (A * B) := {
  keqb := pair_eqb;
  kleb := pair_leb;
  keqb_spec := pair_eqb_spec;
  kleb_total := pair_leb_total;
  kleb_trans := pair_leb_trans;
  kleb_antisym := pair_leb_antisym
}.
End PairKey.

(** A string cell is missing when it is the empty string; an integer
    cell derived from the date is never missing; a two-column key is
    missing when one of its parts is. *)
#[export] Instance string_Cell : Cell string := {
  isna := fun s => String.eqb s ""
}.

#[export] Instance Z_Cell : Cell Z := {
  isna := fun _ => false
}.

#[export] Instance pair_Cell {A B : Type} `{Cell A} `{Cell B}
  : Cell (A * B) := {
  isna := fun p => isna (fst p) || isna (snd p)
}.

(** ** The dataset *)

(** A row of the CSV file once [read_csv] and [to_datetime] have parsed
    it. *)
Record RawRow := mkRawRow {
  raw_OrderID         : string;
  raw_Date            : Timestamp;
  raw_Region          : string;
  raw_Category        : string;
  raw_Product         : string;
  raw_Store           : string;
  raw_CustomerSegment : string;
  raw_PaymentMethod   : string;
  raw_TotalRevenue    : Z
}.

(** A row of [df]: the CSV columns and the three derived ones. *)
Record Row := mkRow {
  OrderID         : string;
  Date            : Timestamp;
  Region          : string;
  Category        : string;
  Product         : string;
  Store           : string;
  CustomerSegment : string;
  PaymentMethod   : string;
  TotalRevenue    : Z;
  Month           : string;
  Year            : Z;
  Quarter         : Z
}.

Definition DataFrame := list Row.

(** One row of [load_data]: the column assignments of lines 57-60. *)
Definition derive (r : RawRow) : Row :=
  {| OrderID := raw_OrderID r;
     Date := raw_Date r;
     Region := raw_Region r;
     Category := raw_Category r;
     Product := raw_Product r;
     Store := raw_Store r;
     CustomerSegment := raw_CustomerSegment r;
     PaymentMethod := raw_PaymentMethod r;
     TotalRevenue := raw_TotalRevenue r;
     Month := period_M_str (raw_Date r);
     Year := dt_year (raw_Date r);
     Quarter := dt_quarter (raw_Date r) |}.

Definition load_data (csv : list RawRow) : DataFrame := map derive csv.

(** ** Filters *)

(** The sidebar selections, with the date range already resolved to
    [start_date] and [end_date] (lines 149-150). *)
Record FilterSpec := mkFilterSpec {
  regions    : list string;
  categories : list string;
  segments   : list string;
  years      : list Z;
  quarters   : list Z;
  start_date : Timestamp;
  end_date   : Timestamp
}.

(** [Series.between(left, right)], both ends included. *)
Definition between (d left_ right_ : Timestamp) : bool :=
  ts_leb left_ d && ts_leb d right_.

(** The boolean mask of lines 153-158. *)
Definition row_mask (f : FilterSpec) (r : Row) : bool :=
  isin (Region r) (regions f) &&
  isin (Category r) (categories f) &&
  isin (CustomerSegment r) (segments f) &&
  isin (Year r) (years f) &&
  isin (Quarter r) (quarters f) &&
  between (Date r) (start_date f) (end_date f).

Definition df_filtered (df : DataFrame) (f : FilterSpec) : DataFrame :=
  select (row_mask f) df.

(** The two frames the script holds: [df] is bound once by [load_data],
    the filter step binds [df_filtered] and assigns nothing else. *)
Record Frames := mkFrames {
  var_df          : DataFrame;
  var_df_filtered : DataFrame
}.

Definition apply_filters (f : FilterSpec) (s : Frames) : Frames :=
  {| var_df := var_df s;
     var_df_filtered := df_filtered (var_df s) f |}.

(** The six conditions of the filter, as propositions. *)
Definition satisfies (f : FilterSpec) (r : Row) : Prop :=
  In (Region r) (regions f) /\
  In (Category r) (categories f) /\
  In (CustomerSegment r) (segments f) /\
  In (Year r) (years f) /\
  In (Quarter r) (quarters f) /\
  ts_le (start_date f) (Date r) /\ ts_le (Date r) (end_date f).

(** ** Aggregations *)

Definition total_revenue (view : DataFrame) : Z :=
  sum (map TotalRevenue view).

Definition total_orders (view : DataFrame) : nat :=
  nunique (map OrderID view).

Definition avg_order_value (view : DataFrame) : pyfloat :=
  mean (map TotalRevenue view).

Definition monthly_region (view : DataFrame) : list ((string * string) * Z) :=
  groupby_sum (fun r => (Month r, Region r)) TotalRevenue view.

Definition category_rev (view : DataFrame) : list (string * Z) :=
  groupby_sum Category TotalRevenue view.

Definition top_products (view : DataFrame) : list (string * Z) :=
  head 10 (sort_values_desc snd (groupby_sum Product TotalRevenue view)).

Definition segment_rev (view : DataFrame) : list (string * Z) :=
  groupby_sum CustomerSegment TotalRevenue view.

Definition payment_counts (view : DataFrame) : list (string * Z) :=
  value_counts (map PaymentMethod view).

Definition store_rev (view : DataFrame) : list (string * Z) :=
  head 10 (sort_values_desc snd (groupby_sum Store TotalRevenue view)).

(** ** Orders on aggregation results *)

(** Position of the first row of a column that holds [k]. *)
Fixpoint first_index {K : Type} `{Key K} (k : K) (col : list K) : nat :=
  match col with
  | [] => 0
  | k' :: rest => if keqb k k' then 0 else S (first_index k rest)
  end.

(** A result lists its groups in the order in which the view first
    shows them. *)
Definition in_first_seen_order {K V : Type} `{Key K}
  (key : Row -> K) (view : DataFrame) (result : list (K * V)) : Prop :=
  map fst result = unique (map key view).

(** Entries with equal metric stand in the order in which the view first
    shows their groups. *)
Definition ties_in_first_seen_order {K : Type} `{Key K}
  (key : Row -> K) (view : DataFrame) (result : list (K * Z)) : Prop :=
  forall i j a b,
    (i < j)%nat ->
    nth_error result i = Some a -> nth_error result j = Some b ->
    snd a = snd b ->
    (first_index (fst a) (map key view) <
     first_index (fst b) (map key view))%nat.

(** ** Sample data *)

Definition sample_csv : list RawRow :=
  [ mkRawRow "1001" (mkTimestamp 2024 4 3) "Europe" "iPhone" "iPhone 15"
      "Paris" "Consumer" "Cash" 500;
    mkRawRow "1002" (mkTimestamp 2024 12 9) "Europe" "Mac" "AirPods"
      "Berlin" "Business" "Card" 500;
    mkRawRow "1003" (mkTimestamp 2024 1 20) "Asia" "Mac" "MacBook Air"
      "Berlin" "Business" "Card" 50 ].

Definition sample_df : DataFrame := load_data sample_csv.

Definition sample_spec : FilterSpec :=
  {| regions := ["Europe"];
     categories := ["iPhone"; "Mac"];
     segments := ["Consumer"; "Business"];
     years := [2024];
     quarters := [1; 2; 3; 4];
     start_date := mkTimestamp 2024 1 1;
     end_date := mkTimestamp 2024 12 31 |}.

Definition no_region_spec : FilterSpec :=
  {| regions := [];
     categories := categories sample_spec;
     segments := segments sample_spec;
     years := years sample_spec;
     quarters := quarters sample_spec;
     start_date := start_date sample_spec;
     end_date := end_date sample_spec |}.

Definition reversed_spec : FilterSpec :=
  {| regions := regions sample_spec;
     categories := categories sample_spec;
     segments := segments sample_spec;
     years := years sample_spec;
     quarters := quarters sample_spec;
     start_date := mkTimestamp 2024 12 31;
     end_date := mkTimestamp 2024 1 1 |}.

Definition sample_lo : Timestamp := mkTimestamp 2024 1 20.
Definition sample_hi : Timestamp := mkTimestamp 2024 12 9.

Definition one_day_spec : FilterSpec :=
  {| regions := regions sample_spec;
     categories := categories sample_spec;
     segments := segments sample_spec;
     years := years sample_spec;
     quarters := quarters sample_spec;
     start_date := mkTimestamp 2024 4 3;
     end_date := mkTimestamp 2024 4 3 |}.


Definition sample_row : Row :=
  derive (mkRawRow "1001" (mkTimestamp 2024 4 3) "Europe" "iPhone"
            "iPhone 15" "Paris" "Consumer" "Cash" 500).

Definition sample_row_late : Row :=
  derive (mkRawRow "1002" (mkTimestamp 2024 12 9) "Europe" "Mac" "AirPods"
            "Berlin" "Business" "Card" 500).



(** Two orders of the same month. *)
Definition april_csv : list RawRow :=
  [ mkRawRow "3001" (mkTimestamp 2024 4 3) "Europe" "iPhone" "iPhone 15"
      "Paris" "Consumer" "Cash" 500;
    mkRawRow "3002" (mkTimestamp 2024 4 9) "Asia" "Mac" "MacBook Air"
      "Tokyo" "Business" "Card" 900 ].

Definition april_row_1 : Row :=
  derive (mkRawRow "3001" (mkTimestamp 2024 4 3) "Europe" "iPhone"
            "iPhone 15" "Paris" "Consumer" "Cash" 500).

Definition april_row_2 : Row :=
  derive (mkRawRow "3002" (mkTimestamp 2024 4 9) "Asia" "Mac"
            "MacBook Air" "Tokyo" "Business" "Card" 900).

(** Eleven stores, one order each. *)
Definition store_order (name : string) (revenue : Z) : RawRow :=
  mkRawRow name (mkTimestamp 2024 5 2) "Europe" "Mac" "MacBook Air"
    name "Consumer" "Card" revenue.

Definition stores_csv : list RawRow :=
  [ store_order "S01" 10; store_order "S02" 20; store_order "S03" 30;
    store_order "S04" 40; store_order "S05" 50; store_order "S06" 60;
    store_order "S07" 70; store_order "S08" 80; store_order "S09" 90;
    store_order "S10" 100; store_order "S11" 110 ].

Definition stores_df : DataFrame := load_data stores_csv.

(** ** Order-preserving subsequences *)

Inductive subseq {A : Type} : list A -> list A -> Prop :=
| subseq_nil : subseq [] []
| subseq_skip : forall x s l, subseq s l -> subseq s (x :: l)
| subseq_keep : forall x s l, subseq s l -> subseq (x :: s) (x :: l).

(** ** Amounts that fit the integer column *)


(** ** Sidebar widgets *)

(** [Series.min()] and [Series.max()] of the Date column (lines
    123-124).  On an empty column pandas answers NaT, here [None]. *)
Definition ts_min (a b : Timestamp) : Timestamp :=
  if ts_leb a b then a else b.

Definition ts_max (a b : Timestamp) : Timestamp :=
  if ts_leb a b then b else a.

Definition series_min (col : list Timestamp) : option Timestamp :=
  match col with
  | [] => None
  | d :: rest => Some (fold_left ts_min rest d)
  end.

Definition series_max (col : list Timestamp) : option Timestamp :=
  match col with
  | [] => None
  | d :: rest => Some (fold_left ts_max rest d)
  end.

Definition min_date (df : DataFrame) : option Timestamp :=
  series_min (map Date df).

Definition max_date (df : DataFrame) : option Timestamp :=
  series_max (map Date df).

(** What a multiselect holds on the first run (lines 73-85): with the
    select-all box ticked its default is every option, otherwise it has
    no default and starts empty. *)
Definition multiselect_initial {K : Type} (select_all : bool)
  (options : list K) : list K :=
  if select_all then options else [].

(** The values the widgets return on one run of the script. *)
Record Widgets := mkWidgets {
  w_regions    : list string;
  w_categories : list string;
  w_segments   : list string;
  w_date_range : list Timestamp;
  w_years      : list Z;
  w_quarters   : list Z
}.

(** The first run: option lists are [unique()] of the column, for years
    and quarters passed through [sorted]; the date input starts at
    [[min_date, max_date]]. *)
Definition initial_widgets (df : DataFrame)
  (all_regions all_categories all_segments : bool)
  (lo hi : Timestamp) : Widgets :=
  {| w_regions := multiselect_initial all_regions (unique (map Region df));
     w_categories :=
       multiselect_initial all_categories (unique (map Category df));
     w_segments :=
       multiselect_initial all_segments (unique (map CustomerSegment df));
     w_date_range := [lo; hi];
     w_years := sort_keys (unique (map Year df));
     w_quarters := sort_keys (unique (map Quarter df)) |}.

(** Lines 149-150: a date input that holds fewer than two dates falls
    back on the dataset's first and last date. *)
Definition resolve_start (date_range : list Timestamp) (lo : Timestamp)
  : Timestamp :=
  match date_range with
  | d :: _ => d
  | [] => lo
  end.

Definition resolve_end (date_range : list Timestamp) (hi : Timestamp)
  : Timestamp :=
  match date_range with
  | _ :: d :: _ => d
  | _ => hi
  end.

Definition spec_of (w : Widgets) (lo hi : Timestamp) : FilterSpec :=
  {| regions := w_regions w;
     categories := w_categories w;
     segments := w_segments w;
     years := w_years w;
     quarters := w_quarters w;
     start_date := resolve_start (w_date_range w) lo;
     end_date := resolve_end (w_date_range w) hi |}.

(** One selection is at least as wide as another. *)
Definition wider (f g : FilterSpec) : Prop :=
  incl (regions f) (regions g) /\
  incl (categories f) (categories g) /\
  incl (segments f) (segments g) /\
  incl (years f) (years g) /\
  incl (quarters f) (quarters g) /\
  ts_le (start_date g) (start_date f) /\
  ts_le (end_date f) (end_date g).

(** ** Comparing month labels *)

(** The first comparison decides unless it is a tie. *)
Definition cmp_then (c d : comparison) : comparison :=
  match c with
  | Eq => d
  | Lt => Lt
  | Gt => Gt
  end.

(** Years that [YYYY-MM] prints with four digits; every pandas timestamp
    (years 1677 to 2262) is among them. *)
Definition four_digit_year (t : Timestamp) : Prop :=
  1000 <= ts_year t <= 9999.

(** ** Number formatting of the cards and the footer *)

(** [str(n)] of a non-negative integer. *)
Definition str_of_N (n : N) : string :=
  NilZero.string_of_uint (N.to_uint n).

(** Thousands grouping of the format specifier [,], on the digits read
    from the right. *)
Fixpoint group3 (l : list ascii) : list ascii :=
  match l with
  | a :: b :: c :: ((_ :: _) as rest) =>
      a :: b :: c :: ","%char :: group3 rest
  | _ => l
  end.

(** [f"{n:,}"] for a non-negative integer. *)
Definition fmt_thousands (n : N) : string :=
  string_of_list_ascii
    (rev (group3 (rev (list_ascii_of_string (str_of_N n))))).

(** The text of the orders card (line 187) and the data-points figure of
    the footer (line 337). *)
Definition metric_total_orders (view : DataFrame) : string :=
  fmt_thousands (N.of_nat (total_orders view)).

Definition footer_data_points (view : DataFrame) : string :=
  fmt_thousands (N.of_nat (List.length view)).

(** Reading a grouped number back: drop the separators and read the
    decimal digits. *)
Definition strip_commas (s : string) : string :=
  string_of_list_ascii
    (filter (fun c => negb (Ascii.eqb c ","%char)) (list_ascii_of_string s)).

Definition read_N (s : string) : option N :=
  option_map N.of_uint (NilZero.uint_of_string s).

(** * Properties of the filter *)

Section KeyFacts.
Context {K : Type} `{Key K}.

Lemma keqb_eq (x y : K) : keqb x y = true <-> x = y.
Proof. destruct (keqb_spec x y); split; intros; congruence. Qed.

Lemma keqb_refl (x : K) : keqb x x = true.
Proof. now apply keqb_eq. Qed.

Lemma keqb_neq (x y : K) : keqb x y = false <-> x <> y.
Proof. destruct (keqb_spec x y); split; intros; congruence. Qed.

Lemma isin_In (x : K) (values : list K) :
  isin x values = true <-> In x values.
Proof.
  unfold isin. rewrite existsb_exists. split.
  - intros [y [Hy Heq]]. apply keqb_eq in Heq. now subst.
  - intros Hin. exists x. split; [assumption | apply keqb_refl].
Qed.

Lemma isin_nil (x : K) : isin x [] = false.
Proof. reflexivity. Qed.
End KeyFacts.

Lemma ts_leb_le (a b : Timestamp) : ts_leb a b = true <-> ts_le a b.
Proof.
  unfold ts_leb, ts_le. destruct (ts_compare a b); split; congruence.
Qed.

Lemma ts_le_trans (a b c : Timestamp) : ts_le a b -> ts_le b c -> ts_le a c.
Proof.
  unfold ts_le, ts_compare.
  destruct a as [ya ma da], b as [yb mb db], c as [yc mc dc]; simpl.
  destruct (Z.compare_spec ya yb), (Z.compare_spec yb yc),
    (Z.compare_spec ya yc); try congruence; try lia;
  destruct (Z.compare_spec ma mb), (Z.compare_spec mb mc),
    (Z.compare_spec ma mc); try congruence; try lia;
  destruct (Z.compare_spec da db), (Z.compare_spec db dc),
    (Z.compare_spec da dc); try congruence; lia.
Qed.

Lemma between_iff (d l r : Timestamp) :
  between d l r = true <-> ts_le l d /\ ts_le d r.
Proof.
  unfold between. now rewrite andb_true_iff, !ts_leb_le.
Qed.

Lemma between_reversed (d l r : Timestamp) :
  ts_gt l r -> between d l r = false.
Proof.
  intros Hgt. destruct (between d l r) eqn:Hb; [|reflexivity].
  apply between_iff in Hb. destruct Hb as [H1 H2].
  exfalso. exact (ts_le_trans _ _ _ H1 H2 Hgt).
Qed.

Lemma row_mask_iff (f : FilterSpec) (r : Row) :
  row_mask f r = true <-> satisfies f r.
Proof.
  unfold row_mask, satisfies.
  rewrite !andb_true_iff, !isin_In, between_iff. tauto.
Qed.

Lemma select_all_false {R : Type} (mask : R -> bool) (df : list R) :
  (forall r, mask r = false) -> select mask df = [].
Proof.
  intros Hm. unfold select. induction df as [|r df IH]; simpl.
  - reflexivity.
  - now rewrite Hm.
Qed.

Lemma select_idem {R : Type} (mask : R -> bool) (df : list R) :
  select mask (select mask df) = select mask df.
Proof.
  unfold select. induction df as [|r df IH]; simpl.
  - reflexivity.
  - destruct (mask r) eqn:Hr; simpl; [rewrite Hr, IH|]; auto.
Qed.

Lemma select_subseq {R : Type} (mask : R -> bool) (df : list R) :
  subseq (select mask df) df.
Proof.
  unfold select. induction df as [|r df IH]; simpl.
  - constructor.
  - destruct (mask r); now constructor.
Qed.

Lemma subseq_In {A : Type} (s l : list A) :
  subseq s l -> forall x, In x s -> In x l.
Proof.
  induction 1; simpl; intros y Hy; intuition.
Qed.

Lemma subseq_filter_length {A : Type} (P : A -> bool) (s l : list A) :
  subseq s l -> (List.length (filter P s) <= List.length (filter P l))%nat.
Proof.
  induction 1; simpl; try destruct (P x); simpl; lia.
Qed.

(** C1. A row belongs to the filtered frame exactly when it is a row of
    the dataset and meets the six conditions: its Region, Category,
    CustomerSegment, Year and Quarter are each equal to one of the
    selected values, and its Date lies between the start and the end
    date, both included. *)
Theorem df_filtered_membership (df : DataFrame) (f : FilterSpec) (r : Row) :
  In r (df_filtered df f) <->
  In r df /\
  In (Region r) (regions f) /\
  In (Category r) (categories f) /\
  In (CustomerSegment r) (segments f) /\
  In (Year r) (years f) /\
  In (Quarter r) (quarters f) /\
  ts_le (start_date f) (Date r) /\ ts_le (Date r) (end_date f).
Proof.
  unfold df_filtered, select. rewrite filter_In, row_mask_iff.
  reflexivity.
Qed.

(** C2. When one of the five selection lists is empty the filtered frame
    is empty; the filter is a total function and reports no error. *)
Theorem df_filtered_empty_selection (df : DataFrame) (f : FilterSpec) :
  regions f = [] \/ categories f = [] \/ segments f = [] \/
  years f = [] \/ quarters f = [] ->
  df_filtered df f = [].
Proof.
  intros Hempty. apply select_all_false. intros r. unfold row_mask.
  destruct Hempty as [E|[E|[E|[E|E]]]]; rewrite E, isin_nil;
    repeat (rewrite ?andb_false_r, ?andb_false_l); reflexivity.
Qed.

(** C3. A reversed date range (start after end) gives the empty frame
    whatever the other selections are. *)
Theorem df_filtered_reversed_range (df : DataFrame) (f : FilterSpec) :
  ts_gt (start_date f) (end_date f) ->
  df_filtered df f = [].
Proof.
  intros Hgt. apply select_all_false. intros r. unfold row_mask.
  rewrite (between_reversed _ _ _ Hgt). apply andb_false_r.
Qed.

(** C7. Filtering is idempotent: applying the same selections to the
    filtered frame gives that frame again, and each of its rows meets the
    six conditions. *)
Theorem df_filtered_idempotent (df : DataFrame) (f : FilterSpec) :
  df_filtered (df_filtered df f) f = df_filtered df f /\
  Forall (satisfies f) (df_filtered df f).
Proof.
  split.
  - apply select_idem.
  - apply Forall_forall. intros r Hr.
    apply filter_In in Hr. now apply row_mask_iff.
Qed.

(** C10. The filtered frame is an order-preserving subsequence of the
    dataset: its rows are rows of the dataset in their original relative
    order, no test is met by more rows of the view than of the dataset
    (nothing is duplicated or made up), and the filter step leaves [df]
    as it was. *)
Theorem df_filtered_subsequence (s : Frames) (f : FilterSpec) :
  let s' := apply_filters f s in
  var_df_filtered s' = df_filtered (var_df s) f /\
  subseq (var_df_filtered s') (var_df s) /\
  (forall r, In r (var_df_filtered s') -> In r (var_df s)) /\
  (forall P : Row -> bool,
     (List.length (filter P (var_df_filtered s')) <=
      List.length (filter P (var_df s)))%nat) /\
  var_df s' = var_df s.
Proof.
  simpl. pose proof (select_subseq (row_mask f) (var_df s)) as Hsub.
  repeat split.
  - exact Hsub.
  - now apply subseq_In.
  - intros P. now apply subseq_filter_length.
Qed.

(** * The loader *)

Lemma quarter_is_ceil (m : Z) : (m - 1) / 3 + 1 = ceil_div m 3.
Proof.
  unfold ceil_div.
  pose proof (Z.div_mod (m - 1) 3 ltac:(lia)) as H1.
  pose proof (Z.mod_pos_bound (m - 1) 3 ltac:(lia)) as B1.
  pose proof (Z.div_mod (- m) 3 ltac:(lia)) as H2.
  pose proof (Z.mod_pos_bound (- m) 3 ltac:(lia)) as B2.
  lia.
Qed.

Lemma quarter_range (m : Z) : 1 <= m <= 12 -> 1 <= (m - 1) / 3 + 1 <= 4.
Proof.
  intros Hm.
  pose proof (Z.div_mod (m - 1) 3 ltac:(lia)) as H1.
  pose proof (Z.mod_pos_bound (m - 1) 3 ltac:(lia)) as B1.
  lia.
Qed.

(** C9. For every loaded row the Quarter column is ceil(month / 3) of the
    row's Date: month 4 gives quarter 2, month 12 gives quarter 4, and a
    calendar month (1 to 12) gives a quarter between 1 and 4. *)
Theorem load_data_quarter (csv : list RawRow) (r : Row) :
  In r (load_data csv) ->
  Quarter r = ceil_div (ts_month (Date r)) 3 /\
  (ts_month (Date r) = 4 -> Quarter r = 2) /\
  (ts_month (Date r) = 12 -> Quarter r = 4) /\
  (valid_month (Date r) -> 1 <= Quarter r <= 4).
Proof.
  unfold load_data. intros Hin. apply in_map_iff in Hin.
  destruct Hin as [raw [<- _]]. simpl. unfold dt_quarter, valid_month.
  repeat split.
  - apply quarter_is_ceil.
  - intros ->. reflexivity.
  - intros ->. reflexivity.
  - now apply quarter_range.
  - now apply quarter_range.
Qed.

(** * Scalar KPIs *)

(** C4. On an empty view the total revenue is 0, the number of distinct
    orders is 0, and the average order value is the float NaN: the mean
    answers a value and raises nothing.  NaN is the answer on the empty
    view only. *)
Theorem kpis_on_empty_view :
  total_revenue [] = 0 /\
  total_orders [] = 0%nat /\
  avg_order_value [] = NaN /\
  (forall view, avg_order_value view = NaN <-> view = []).
Proof.
  repeat split; try reflexivity.
  - destruct view; [reflexivity | discriminate].
  - intros ->. reflexivity.
Qed.

(** * Grouping *)

Section UniqueFacts.
Context {K : Type} `{Key K}.

Lemma unique_In (x : K) (col : list K) : In x (unique col) <-> In x col.
Proof.
  induction col as [|y col IH]; simpl; [tauto|].
  rewrite filter_In, IH, negb_true_iff, keqb_neq.
  destruct (keqb_spec y x); intuition congruence.
Qed.

Lemma unique_NoDup (col : list K) : NoDup (unique col).
Proof.
  induction col as [|y col IH]; simpl; constructor.
  - rewrite filter_In, negb_true_iff, keqb_neq. intuition.
  - now apply NoDup_filter.
Qed.

Lemma insert_key_perm (k : K) (ks : list K) :
  Permutation (insert_key k ks) (k :: ks).
Proof.
  induction ks as [|k' ks IH]; simpl; [reflexivity|].
  destruct (kleb k k'); [reflexivity|].
  rewrite IH. apply perm_swap.
Qed.

Lemma sort_keys_perm (ks : list K) : Permutation (sort_keys ks) ks.
Proof.
  induction ks as [|k ks IH]; simpl; [reflexivity|].
  now rewrite insert_key_perm, IH.
Qed.

Lemma insert_key_sorted (k : K) (ks : list K) :
  StronglySorted (fun a b => kleb a b = true) ks ->
  StronglySorted (fun a b => kleb a b = true) (insert_key k ks).
Proof.
  induction 1 as [|k' ks Hs IH Hall]; simpl.
  - repeat constructor.
  - destruct (kleb k k') eqn:Hk.
    + constructor; [now constructor|].
      constructor; [assumption|].
      eapply Forall_impl; [|exact Hall].
      intros z Hz. simpl in Hz. eapply kleb_trans; eauto.
    + constructor; [assumption|].
      apply Forall_forall. intros z Hz.
      apply (Permutation_in _ (insert_key_perm k ks)) in Hz.
      destruct Hz as [<-|Hz].
      * destruct (kleb_total k k'); congruence.
      * rewrite Forall_forall in Hall. now apply Hall.
Qed.

Lemma sort_keys_sorted (ks : list K) :
  StronglySorted (fun a b => kleb a b = true) (sort_keys ks).
Proof.
  induction ks as [|k ks IH]; simpl; [constructor|].
  now apply insert_key_sorted.
Qed.

(** Sorted and free of duplicates means strictly ascending. *)
Lemma sorted_NoDup_strict (ks : list K) :
  StronglySorted (fun a b => kleb a b = true) ks -> NoDup ks ->
  StronglySorted klt ks.
Proof.
  induction 1 as [|k ks Hs IH Hall]; intros Hnd; constructor.
  - apply IH. now inversion Hnd.
  - inversion Hnd as [|? ? Hnotin _]; subst.
    rewrite Forall_forall in *. intros z Hz. split; [now apply Hall|].
    intros ->. contradiction.
Qed.

Lemma group_keys_strict (col : list K) :
  StronglySorted klt (sort_keys (unique col)).
Proof.
  apply sorted_NoDup_strict; [apply sort_keys_sorted|].
  apply (Permutation_NoDup (Permutation_sym (sort_keys_perm _))).
  apply unique_NoDup.
Qed.

Lemma group_keys_In (x : K) (col : list K) :
  In x (sort_keys (unique col)) <-> In x col.
Proof.
  rewrite <- (unique_In x col). split; apply Permutation_in;
    [|apply Permutation_sym]; apply sort_keys_perm.
Qed.

Lemma group_keys_NoDup (col : list K) : NoDup (sort_keys (unique col)).
Proof.
  apply (Permutation_NoDup (Permutation_sym (sort_keys_perm _))).
  apply unique_NoDup.
Qed.
End UniqueFacts.


(** ** Wrap-around arithmetic *)


Lemma wrap64_add_r (a b : Z) : wrap64 (a + wrap64 b) = wrap64 (a + b).
Proof.
  unfold wrap64. f_equal.
  replace (a + ((b + 2 ^ 63) mod 2 ^ 64 - 2 ^ 63) + 2 ^ 63)
    with (a + (b + 2 ^ 63) mod 2 ^ 64) by lia.
  rewrite Zplus_mod_idemp_r. f_equal. lia.
Qed.


Lemma sum_exact (col : list Z) : sum col = wrap64 (exact_sum col).
Proof.
  induction col as [|x col IH].
  - reflexivity.
  - change (sum (x :: col)) with (wrap64 (x + sum col)).
    change (exact_sum (x :: col)) with (x + exact_sum col).
    now rewrite IH, wrap64_add_r.
Qed.


Lemma exact_sum_perm (l1 l2 : list Z) :
  Permutation l1 l2 -> exact_sum l1 = exact_sum l2.
Proof.
  induction 1; simpl; lia.
Qed.

Lemma sum_perm (l1 l2 : list Z) : Permutation l1 l2 -> sum l1 = sum l2.
Proof.
  intros Hp. rewrite !sum_exact. f_equal. now apply exact_sum_perm.
Qed.


(** ** Present cells *)

Section PresentCells.
Context {K : Type} `{Key K} `{Cell K}.

Lemma dropna_In (x : K) (col : list K) :
  In x (dropna col) <-> In x col /\ isna x = false.
Proof.
  unfold dropna. rewrite filter_In, negb_true_iff. reflexivity.
Qed.

Lemma dropna_all (col : list K) :
  (forall x, In x col -> isna x = false) -> dropna col = col.
Proof.
  intros Hall. unfold dropna.
  rewrite <- (filter_true col) at 2. apply filter_ext_in.
  intros x Hx. now rewrite (Hall x Hx).
Qed.

Lemma dropna_map {R : Type} (key : R -> K) (df : list R) :
  dropna (map key df) = map key (with_key key df).
Proof.
  unfold dropna, with_key. induction df as [|r df IH]; simpl;
    [reflexivity|].
  destruct (isna (key r)); simpl; now rewrite IH.
Qed.

Lemma with_key_all {R : Type} (key : R -> K) (df : list R) :
  (forall r, In r df -> isna (key r) = false) -> with_key key df = df.
Proof.
  intros Hall. unfold with_key.
  rewrite <- (filter_true df) at 2. apply filter_ext_in.
  intros r Hr. now rewrite (Hall r Hr).
Qed.

Lemma present_keys_In (x : K) (col : list K) :
  In x (sort_keys (unique (dropna col))) <-> In x col /\ isna x = false.
Proof.
  rewrite group_keys_In. apply dropna_In.
Qed.
End PresentCells.

Lemma string_isna (s : string) : isna s = true <-> s = "".
Proof. simpl. apply String.eqb_eq. Qed.

Lemma string_present (s : string) : isna s = false <-> s <> "".
Proof. simpl. apply String.eqb_neq. Qed.

(** ** Group sums *)

Section GroupSums.
Context {R K : Type} `{Key K} `{Cell K}.
Variables (key : R -> K) (val : R -> Z).

Lemma groupby_sum_keys (df : list R) :
  map fst (groupby_sum key val df) =
  sort_keys (unique (dropna (map key df))).
Proof.
  unfold groupby_sum. rewrite map_map. simpl. apply map_id.
Qed.


Lemma groupby_sum_In (df : list R) (k : K) (v : Z) :
  In (k, v) (groupby_sum key val df) <->
  In k (map key df) /\ isna k = false /\
  v = sum (map val (group_rows key k df)).
Proof.
  unfold groupby_sum. rewrite in_map_iff. split.
  - intros [k' [Heq Hin]]. inversion Heq; subst.
    apply present_keys_In in Hin. tauto.
  - intros (Hin & Hna & ->). exists k. split; [reflexivity|].
    apply present_keys_In. tauto.
Qed.

(** The share of one row in the sums of a duplicate-free key list. *)
Lemma exact_sum_indicator (x : K) (v : Z) (ks : list K) :
  NoDup ks ->
  exact_sum (map (fun k => if keqb x k then v else 0) ks) =
  if isin x ks then v else 0.
Proof.
  induction 1 as [|k ks Hnotin Hnd IH]; simpl; [reflexivity|].
  rewrite IH. destruct (keqb_spec x k) as [->|Hne]; simpl.
  - destruct (isin k ks) eqn:Hin; [|lia].
    apply isin_In in Hin. contradiction.
  - reflexivity.
Qed.

Lemma exact_sum_map_add {A : Type} (f g : A -> Z) (l : list A) :
  exact_sum (map (fun a => f a + g a) l) =
  exact_sum (map f l) + exact_sum (map g l).
Proof.
  induction l as [|a l IH]; simpl; [reflexivity|]. rewrite IH. lia.
Qed.

(** Group sums over a duplicate-free key list add up to the sum over
    the rows whose key is listed. *)
Lemma exact_group_sums (ks : list K) (df : list R) :
  NoDup ks ->
  exact_sum (map (fun k => exact_sum (map val (group_rows key k df))) ks) =
  exact_sum (map val (filter (fun r => isin (key r) ks) df)).
Proof.
  intros Hnd. induction df as [|r df IH].
  - simpl. induction ks; simpl; [reflexivity|].
    inversion Hnd; subst. auto.
  - transitivity
      (exact_sum (map (fun k => (if keqb (key r) k then val r else 0) +
                          exact_sum (map val (group_rows key k df))) ks)).
    + f_equal. apply map_ext. intros k. simpl.
      destruct (keqb (key r) k); reflexivity.
    + rewrite exact_sum_map_add, IH, exact_sum_indicator by assumption.
      simpl. destruct (isin (key r) ks); reflexivity.
Qed.



Lemma groupby_sum_strict (df : list R) :
  StronglySorted (fun a b => klt (fst a) (fst b)) (groupby_sum key val df).
Proof.
  unfold groupby_sum.
  pose proof (group_keys_strict (dropna (map key df))) as Hs.
  induction Hs as [|k ks Hs IH Hall]; simpl; constructor.
  - assumption.
  - rewrite Forall_forall in *. intros p Hp.
    apply in_map_iff in Hp. destruct Hp as [k' [<- Hk']]. simpl. auto.
Qed.
End GroupSums.

(** ** Group-by results do not depend on the order of the rows *)

Section Canonical.
Context {K : Type} `{Key K}.

Lemma strict_sorted_canonical (l1 l2 : list K) :
  StronglySorted klt l1 -> StronglySorted klt l2 ->
  (forall x, In x l1 <-> In x l2) -> l1 = l2.
Proof.
  intros H1. revert l2.
  induction H1 as [|a1 t1 Hs1 IH Hall1]; intros l2 H2 Hsame.
  - destruct l2 as [|a2 t2]; [reflexivity|].
    exfalso. apply (proj2 (Hsame a2)). now left.
  - destruct l2 as [|a2 t2].
    + exfalso. apply (proj1 (Hsame a1)). now left.
    + apply StronglySorted_inv in H2. destruct H2 as [Hs2 Hall2].
      rewrite Forall_forall in Hall1, Hall2.
      assert (Heq : a1 = a2).
      { destruct (proj1 (Hsame a1) (or_introl eq_refl)) as [E|Hin1];
          [now symmetry|].
        destruct (proj2 (Hsame a2) (or_introl eq_refl)) as [E|Hin2];
          [assumption|].
        destruct (Hall2 a1 Hin1) as [L21 _].
        destruct (Hall1 a2 Hin2) as [L12 _].
        now apply kleb_antisym. }
      subst a2. f_equal. apply IH; [assumption|].
      intros x. split; intros Hx.
      * destruct (proj1 (Hsame x) (or_intror Hx)) as [E|Hin]; [|assumption].
        subst x. destruct (Hall1 a1 Hx) as [_ Hne]. congruence.
      * destruct (proj2 (Hsame x) (or_intror Hx)) as [E|Hin]; [|assumption].
        subst x. destruct (Hall2 a1 Hx) as [_ Hne]. congruence.
Qed.

End Canonical.

Section RowOrder.
Context {R K : Type} `{Key K} `{Cell K}.
Variables (key : R -> K) (val : R -> Z).

Lemma group_keys_perm (c1 c2 : list K) :
  Permutation c1 c2 ->
  sort_keys (unique (dropna c1)) = sort_keys (unique (dropna c2)).
Proof.
  intros Hp. apply strict_sorted_canonical; try apply group_keys_strict.
  intros x. rewrite !present_keys_In.
  split; intros [Hin Hna]; (split; [|assumption]);
    revert Hin; apply Permutation_in; [|symmetry]; assumption.
Qed.

Lemma filter_perm (p : R -> bool) (df1 df2 : list R) :
  Permutation df1 df2 -> Permutation (filter p df1) (filter p df2).
Proof.
  induction 1 as [|r l1 l2 Hp IH|r1 r2 l|l1 l2 l3 Hp1 IH1 Hp2 IH2]; simpl.
  - constructor.
  - destruct (p r); [now constructor | assumption].
  - destruct (p r1), (p r2); try reflexivity.
    + apply perm_swap.
  - now transitivity (filter p l2).
Qed.

Lemma group_total_perm (p : R -> bool) (df1 df2 : list R) :
  Permutation df1 df2 ->
  sum (map val (filter p df1)) = sum (map val (filter p df2)).
Proof.
  intros Hp. apply sum_perm, Permutation_map. now apply filter_perm.
Qed.

Lemma groupby_sum_row_order (df1 df2 : list R) :
  Permutation df1 df2 ->
  groupby_sum key val df1 = groupby_sum key val df2.
Proof.
  intros Hp. unfold groupby_sum, group_rows.
  rewrite (group_keys_perm _ _ (Permutation_map key Hp)).
  apply map_ext. intros k. f_equal. now apply group_total_perm.
Qed.
End RowOrder.

(** The top-10 tables are computed from the group-by result alone, so
    they are the same for any two views with the same rows, whatever
    order the rows come in. *)
Lemma top_products_row_order (v1 v2 : DataFrame) :
  Permutation v1 v2 -> top_products v1 = top_products v2.
Proof.
  intros Hp. unfold top_products.
  now rewrite (groupby_sum_row_order Product TotalRevenue v1 v2 Hp).
Qed.

Lemma store_rev_row_order (v1 v2 : DataFrame) :
  Permutation v1 v2 -> store_rev v1 = store_rev v2.
Proof.
  intros Hp. unfold store_rev.
  now rewrite (groupby_sum_row_order Store TotalRevenue v1 v2 Hp).
Qed.

Lemma category_rev_row_order (v1 v2 : DataFrame) :
  Permutation v1 v2 -> category_rev v1 = category_rev v2.
Proof.
  intros Hp. unfold category_rev.
  now apply groupby_sum_row_order.
Qed.

(** * Sorting *)

Section SortedFacts.
Context {A : Type}.

Lemma StronglySorted_impl (R1 R2 : A -> A -> Prop) (l : list A) :
  (forall a b, R1 a b -> R2 a b) ->
  StronglySorted R1 l -> StronglySorted R2 l.
Proof.
  intros Himp. induction 1 as [|x l Hs IH Hall]; constructor.
  - assumption.
  - eapply Forall_impl; [|exact Hall]. auto.
Qed.

Lemma StronglySorted_app (R : A -> A -> Prop) (l1 l2 : list A) :
  StronglySorted R l1 -> StronglySorted R l2 ->
  (forall a b, In a l1 -> In b l2 -> R a b) ->
  StronglySorted R (l1 ++ l2).
Proof.
  induction 1 as [|x l1 Hs IH Hall]; intros H2 Hcross; simpl.
  - assumption.
  - constructor.
    + apply IH; [assumption|]. intros a b Ha Hb. apply Hcross; simpl; auto.
    + apply Forall_app. split; [assumption|].
      apply Forall_forall. intros b Hb. apply Hcross; simpl; auto.
Qed.

Lemma StronglySorted_rev (R : A -> A -> Prop) (l : list A) :
  StronglySorted R l -> StronglySorted (fun a b => R b a) (rev l).
Proof.
  induction 1 as [|x l Hs IH Hall]; simpl.
  - constructor.
  - apply StronglySorted_app.
    + assumption.
    + repeat constructor.
    + intros a b Ha [<-|[]]. apply in_rev in Ha.
      rewrite Forall_forall in Hall. now apply Hall.
Qed.


Variable by_ : A -> Z.

Lemma insert_by_perm (x : A) (l : list A) :
  Permutation (insert_by by_ x l) (x :: l).
Proof.
  induction l as [|y l IH]; simpl; [reflexivity|].
  destruct (by_ x <=? by_ y); [reflexivity|].
  rewrite IH. apply perm_swap.
Qed.

Lemma sort_asc_perm (l : list A) : Permutation (sort_asc by_ l) l.
Proof.
  induction l as [|x l IH]; simpl; [reflexivity|].
  now rewrite insert_by_perm, IH.
Qed.

Lemma sort_values_desc_perm (l : list A) :
  Permutation (sort_values_desc by_ l) l.
Proof.
  unfold sort_values_desc.
  rewrite <- Permutation_rev, sort_asc_perm. symmetry.
  apply Permutation_rev.
Qed.

Lemma insert_by_sorted (x : A) (l : list A) :
  StronglySorted (fun a b => by_ a <= by_ b) l ->
  StronglySorted (fun a b => by_ a <= by_ b) (insert_by by_ x l).
Proof.
  induction 1 as [|y l Hs IH Hall]; simpl.
  - repeat constructor.
  - destruct (by_ x <=? by_ y) eqn:Hle.
    + apply Z.leb_le in Hle. constructor; [now constructor|].
      constructor; [assumption|].
      eapply Forall_impl; [|exact Hall]. simpl. intros z Hz. lia.
    + apply Z.leb_gt in Hle. constructor; [assumption|].
      apply Forall_forall. intros z Hz.
      apply (Permutation_in _ (insert_by_perm x l)) in Hz.
      destruct Hz as [<-|Hz]; [lia|].
      rewrite Forall_forall in Hall. now apply Hall.
Qed.

Lemma sort_asc_sorted (l : list A) :
  StronglySorted (fun a b => by_ a <= by_ b) (sort_asc by_ l).
Proof.
  induction l as [|x l IH]; simpl; [constructor|].
  now apply insert_by_sorted.
Qed.

Lemma sort_values_desc_sorted (l : list A) :
  StronglySorted (fun a b => by_ a >= by_ b) (sort_values_desc by_ l).
Proof.
  unfold sort_values_desc.
  eapply StronglySorted_impl;
    [|apply StronglySorted_rev, sort_asc_sorted].
  simpl. intros a b Hab. lia.
Qed.
End SortedFacts.

(** * Aggregation results *)



(** C5, as the code has it.  The group-by sums without post-processing
    (by month and region, by category, by customer segment) list the
    groups the view shows, one pair each, in strictly ascending order of
    the group key; the payment-method counts list the methods the view
    shows, one pair each, in descending order of count.  A group is a key
    that is present in some row. *)
Theorem plain_groupings_order (view : DataFrame) :
  (Permutation (map fst (monthly_region view))
     (unique (dropna (map (fun r => (Month r, Region r)) view))) /\
   StronglySorted klt (map fst (monthly_region view))) /\
  (Permutation (map fst (category_rev view))
     (unique (dropna (map Category view))) /\
   StronglySorted klt (map fst (category_rev view))) /\
  (Permutation (map fst (segment_rev view))
     (unique (dropna (map CustomerSegment view))) /\
   StronglySorted klt (map fst (segment_rev view))) /\
  (Permutation (map fst (payment_counts view))
     (unique (dropna (map PaymentMethod view))) /\
   StronglySorted (fun a b => snd a >= snd b) (payment_counts view)).
Proof.
  unfold monthly_region, category_rev, segment_rev.
  rewrite !groupby_sum_keys.
  repeat split; try apply sort_keys_perm; try apply group_keys_strict.
  - unfold payment_counts, value_counts.
    rewrite (Permutation_map fst (sort_values_desc_perm snd _)).
    rewrite map_map. simpl. rewrite map_id. reflexivity.
  - apply sort_values_desc_sorted.
Qed.

(** The claim of C5 as the specification words it fails on the sample
    frame: categories are first seen as iPhone, Mac and listed as Mac,
    iPhone; payment methods are first seen as Cash, Card and listed as
    Card, Cash. *)
Lemma plain_groupings_not_first_seen :
  ~ in_first_seen_order Category sample_df (category_rev sample_df) /\
  ~ in_first_seen_order PaymentMethod sample_df (payment_counts sample_df).
Proof.
  split; intros Hc; vm_compute in Hc; discriminate.
Qed.

(** The facts about the top-10 tables hold for every way of sorting
    that returns the rows of the table in descending order of the sum,
    whatever it does with equal sums. *)
Section TopN.
Variable key : Row -> string.
Variable srt : list (string * Z) -> list (string * Z).
Hypothesis srt_perm : forall l, Permutation (srt l) l.
Hypothesis srt_sorted :
  forall l, StronglySorted (fun a b => snd a >= snd b) (srt l).





End TopN.



(** The tie rule fails whatever order the sort leaves among equal sums:
    the sample frame and its reversal have the same group-by table, so
    any way of sorting that table lists iPhone 15 and AirPods in one
    order for both, while the rule asks for opposite orders. *)
Lemma ties_rule_fails_for_any_sort
  (srt : list (string * Z) -> list (string * Z)) :
  (forall l, Permutation (srt l) l) ->
  ~ (ties_in_first_seen_order Product sample_df
       (head 10 (srt (groupby_sum Product TotalRevenue sample_df))) /\
     ties_in_first_seen_order Product (rev sample_df)
       (head 10 (srt (groupby_sum Product TotalRevenue (rev sample_df))))).
Proof.
  intros Hperm [H1 H2].
  assert (Hsame : groupby_sum Product TotalRevenue (rev sample_df) =
                  groupby_sum Product TotalRevenue sample_df)
    by reflexivity.
  rewrite Hsame in H2.
  remember (groupby_sum Product TotalRevenue sample_df) as t eqn:Ht.
  assert (Hlen : List.length (srt t) = 3%nat).
  { rewrite (Permutation_length (Hperm t)). subst t. reflexivity. }
  unfold head in H1, H2. rewrite firstn_all2 in H1, H2 by lia.
  assert (Ha : In ("AirPods", 500) (srt t)).
  { apply (Permutation_in _ (Permutation_sym (Hperm t))). subst t.
    simpl. auto. }
  assert (Hi : In ("iPhone 15", 500) (srt t)).
  { apply (Permutation_in _ (Permutation_sym (Hperm t))). subst t.
    simpl. auto. }
  apply In_nth_error in Ha. destruct Ha as [i Hia].
  apply In_nth_error in Hi. destruct Hi as [j Hjb].
  destruct (Nat.lt_trichotomy i j) as [Hlt|[Heq|Hgt]].
  - specialize (H1 i j _ _ Hlt Hia Hjb eq_refl).
    vm_compute in H1. inversion H1.
  - subst j. rewrite Hia in Hjb. discriminate.
  - specialize (H2 j i _ _ Hgt Hjb Hia eq_refl).
    vm_compute in H2. inversion H2 as [|? H2']. inversion H2'.
Qed.
(** * Instances on the sample data *)

Lemma df_filtered_empty_selection_witness :
  regions no_region_spec = [] /\ df_filtered sample_df no_region_spec = [].
Proof.
  split; [reflexivity|].
  apply (df_filtered_empty_selection sample_df no_region_spec).
  left. reflexivity.
Defined.

Lemma df_filtered_reversed_range_witness :
  ts_gt (start_date reversed_spec) (end_date reversed_spec) /\
  df_filtered sample_df reversed_spec = [].
Proof.
  split; [reflexivity|].
  apply (df_filtered_reversed_range sample_df reversed_spec).
  reflexivity.
Defined.

Lemma load_data_quarter_witness :
  exists r, In r (load_data sample_csv) /\ Quarter r = 2 /\
            Quarter r = ceil_div (ts_month (Date r)) 3.
Proof.
  exists (derive (mkRawRow "1001" (mkTimestamp 2024 4 3) "Europe" "iPhone"
                    "iPhone 15" "Paris" "Consumer" "Cash" 500)).
  assert (Hin : In (derive (mkRawRow "1001" (mkTimestamp 2024 4 3) "Europe"
                      "iPhone" "iPhone 15" "Paris" "Consumer" "Cash" 500))
                   (load_data sample_csv)) by (simpl; left; reflexivity).
  split; [exact Hin|].
  destruct (load_data_quarter sample_csv _ Hin) as [Hceil [H4 _]].
  split; [apply H4; reflexivity | exact Hceil].
Defined.

(** The scenario of the specification: of three rows, two in region
    Europe with revenues 500 and 500, filtering on Europe keeps the two
    rows and the total revenue is 1000. *)
Example filter_scenario :
  List.length (df_filtered sample_df sample_spec) = 2%nat /\
  total_revenue (df_filtered sample_df sample_spec) = 1000 /\
  category_rev (df_filtered sample_df sample_spec) =
    [("Mac", 500); ("iPhone", 500)].
Proof. repeat split. Qed.

(** * The sidebar and the filter *)

Lemma ts_le_refl (a : Timestamp) : ts_le a a.
Proof.
  unfold ts_le, ts_compare. now rewrite !Z.compare_refl.
Qed.

Lemma ts_le_total (a b : Timestamp) : ts_le a b \/ ts_le b a.
Proof.
  unfold ts_le, ts_compare. destruct a as [ya ma da], b as [yb mb db]; simpl.
  rewrite (Z.compare_antisym ya yb), (Z.compare_antisym ma mb),
    (Z.compare_antisym da db).
  destruct (ya ?= yb), (ma ?= mb), (da ?= db); simpl;
    (left; discriminate) || (right; discriminate).
Qed.

Lemma ts_le_antisym (a b : Timestamp) : ts_le a b -> ts_le b a -> a = b.
Proof.
  unfold ts_le, ts_compare. destruct a as [ya ma da], b as [yb mb db]; simpl.
  destruct (Z.compare_spec ya yb), (Z.compare_spec yb ya); try lia;
    try congruence;
  destruct (Z.compare_spec ma mb), (Z.compare_spec mb ma); try lia;
    try congruence;
  destruct (Z.compare_spec da db), (Z.compare_spec db da); try lia;
    try congruence.
Qed.

Lemma ts_le_year (a b : Timestamp) : ts_le a b -> ts_year a <= ts_year b.
Proof.
  unfold ts_le, ts_compare.
  destruct (Z.compare_spec (ts_year a) (ts_year b)); try lia. congruence.
Qed.

Lemma ts_min_le_l (a b : Timestamp) : ts_le (ts_min a b) a.
Proof.
  unfold ts_min. destruct (ts_leb a b) eqn:E; [apply ts_le_refl|].
  destruct (ts_le_total a b) as [Hab|Hba]; [|assumption].
  apply ts_leb_le in Hab. congruence.
Qed.

Lemma ts_min_le_r (a b : Timestamp) : ts_le (ts_min a b) b.
Proof.
  unfold ts_min. destruct (ts_leb a b) eqn:E;
    [now apply ts_leb_le | apply ts_le_refl].
Qed.

Lemma ts_max_ge_l (a b : Timestamp) : ts_le a (ts_max a b).
Proof.
  unfold ts_max. destruct (ts_leb a b) eqn:E;
    [now apply ts_leb_le | apply ts_le_refl].
Qed.

Lemma ts_max_ge_r (a b : Timestamp) : ts_le b (ts_max a b).
Proof.
  unfold ts_max. destruct (ts_leb a b) eqn:E; [apply ts_le_refl|].
  destruct (ts_le_total a b) as [Hab|Hba]; [|assumption].
  apply ts_leb_le in Hab. congruence.
Qed.

Lemma fold_ts_min_bound (rest : list Timestamp) (d : Timestamp) :
  ts_le (fold_left ts_min rest d) d /\
  forall x, In x rest -> ts_le (fold_left ts_min rest d) x.
Proof.
  revert d. induction rest as [|y rest IH]; intros d; simpl.
  - split; [apply ts_le_refl | tauto].
  - destruct (IH (ts_min d y)) as [H1 H2]. split.
    + eapply ts_le_trans; [exact H1 | apply ts_min_le_l].
    + intros x [<-|Hx]; [|now apply H2].
      eapply ts_le_trans; [exact H1 | apply ts_min_le_r].
Qed.

Lemma fold_ts_max_bound (rest : list Timestamp) (d : Timestamp) :
  ts_le d (fold_left ts_max rest d) /\
  forall x, In x rest -> ts_le x (fold_left ts_max rest d).
Proof.
  revert d. induction rest as [|y rest IH]; intros d; simpl.
  - split; [apply ts_le_refl | tauto].
  - destruct (IH (ts_max d y)) as [H1 H2]. split.
    + eapply ts_le_trans; [apply ts_max_ge_l | exact H1].
    + intros x [<-|Hx]; [|now apply H2].
      eapply ts_le_trans; [apply ts_max_ge_r | exact H1].
Qed.

Lemma min_date_bound (df : DataFrame) (lo : Timestamp) :
  min_date df = Some lo -> forall r, In r df -> ts_le lo (Date r).
Proof.
  unfold min_date, series_min. destruct df as [|r0 df]; [discriminate|].
  simpl. intros [= <-] r Hr.
  destruct (fold_ts_min_bound (map Date df) (Date r0)) as [H1 H2].
  destruct Hr as [<-|Hr]; [assumption|]. apply H2. now apply in_map.
Qed.

Lemma max_date_bound (df : DataFrame) (hi : Timestamp) :
  max_date df = Some hi -> forall r, In r df -> ts_le (Date r) hi.
Proof.
  unfold max_date, series_max. destruct df as [|r0 df]; [discriminate|].
  simpl. intros [= <-] r Hr.
  destruct (fold_ts_max_bound (map Date df) (Date r0)) as [H1 H2].
  destruct Hr as [<-|Hr]; [assumption|]. apply H2. now apply in_map.
Qed.

Lemma select_all_true {R : Type} (mask : R -> bool) (df : list R) :
  (forall r, In r df -> mask r = true) -> select mask df = df.
Proof.
  intros Hm. unfold select.
  rewrite <- (filter_true df) at 2. apply filter_ext_in. assumption.
Qed.

Lemma select_weaken {R : Type} (p q : R -> bool) (df : list R) :
  (forall r, p r = true -> q r = true) ->
  subseq (select p df) (select q df).
Proof.
  intros Hpq. unfold select. induction df as [|r df IH]; simpl.
  - constructor.
  - destruct (p r) eqn:Hp.
    + rewrite (Hpq r Hp). now constructor.
    + destruct (q r); [now constructor | assumption].
Qed.

Lemma select_select {R : Type} (p q : R -> bool) (df : list R) :
  select p (select q df) = select (fun r => q r && p r) df.
Proof.
  unfold select. induction df as [|r df IH]; simpl; [reflexivity|].
  destruct (q r); simpl; [destruct (p r)|]; now rewrite IH.
Qed.

(** X1. On the first run with the three select-all boxes ticked, the
    filtered frame is the whole dataset: every option is selected and the
    date input spans the first to the last date. *)
Theorem first_run_shows_everything (df : DataFrame) (lo hi : Timestamp) :
  min_date df = Some lo -> max_date df = Some hi ->
  df_filtered df (spec_of (initial_widgets df true true true lo hi) lo hi)
  = df.
Proof.
  intros Hlo Hhi. apply select_all_true. intros r Hr.
  apply row_mask_iff. unfold satisfies. simpl.
  repeat split.
  - apply unique_In. now apply in_map.
  - apply unique_In. now apply in_map.
  - apply unique_In. now apply in_map.
  - apply group_keys_In. now apply in_map.
  - apply group_keys_In. now apply in_map.
  - now apply (min_date_bound df).
  - now apply (max_date_bound df).
Qed.

(** X2. On the first run with one of the select-all boxes unticked, the
    matching multiselect starts empty and the filtered frame is empty. *)
Theorem first_run_unticked_shows_nothing (df : DataFrame)
  (all_regions all_categories all_segments : bool) (lo hi : Timestamp) :
  all_regions = false \/ all_categories = false \/ all_segments = false ->
  df_filtered df
    (spec_of (initial_widgets df all_regions all_categories all_segments
                lo hi) lo hi) = [].
Proof.
  intros Hbox. apply select_all_false. intros r. unfold row_mask. simpl.
  destruct Hbox as [->|[->| ->]]; simpl;
    repeat (rewrite ?andb_false_r, ?andb_false_l); reflexivity.
Qed.

(** X3. When the date input holds a start date only, the end of the range
    is the last date of the dataset, so no row is left out for being too
    late: a row is kept exactly when it meets the five selections and is
    dated on or after the start. *)
Theorem start_only_range (df : DataFrame) (w : Widgets)
  (d lo hi : Timestamp) (r : Row) :
  w_date_range w = [d] -> max_date df = Some hi ->
  (In r (df_filtered df (spec_of w lo hi)) <->
   In r df /\
   In (Region r) (w_regions w) /\
   In (Category r) (w_categories w) /\
   In (CustomerSegment r) (w_segments w) /\
   In (Year r) (w_years w) /\
   In (Quarter r) (w_quarters w) /\
   ts_le d (Date r)).
Proof.
  intros Hrange Hhi. unfold df_filtered, select.
  rewrite filter_In, row_mask_iff. unfold satisfies, spec_of. simpl.
  rewrite Hrange. simpl. split.
  - tauto.
  - intros [Hin H]. split; [assumption|].
    repeat (split; [tauto|]). now apply (max_date_bound df).
Qed.

(** X4. When the date input is empty, the range falls back on the first
    and last date of the dataset and the date test leaves out no row. *)
Theorem empty_range_is_no_date_filter (df : DataFrame) (w : Widgets)
  (lo hi : Timestamp) (r : Row) :
  w_date_range w = [] -> min_date df = Some lo -> max_date df = Some hi ->
  (In r (df_filtered df (spec_of w lo hi)) <->
   In r df /\
   In (Region r) (w_regions w) /\
   In (Category r) (w_categories w) /\
   In (CustomerSegment r) (w_segments w) /\
   In (Year r) (w_years w) /\
   In (Quarter r) (w_quarters w)).
Proof.
  intros Hrange Hlo Hhi. unfold df_filtered, select.
  rewrite filter_In, row_mask_iff. unfold satisfies, spec_of. simpl.
  rewrite Hrange. simpl. split.
  - tauto.
  - intros [Hin H]. split; [assumption|].
    repeat (split; [tauto|]).
    split; [now apply (min_date_bound df) | now apply (max_date_bound df)].
Qed.

(** X5. A range whose start and end are the same day keeps only rows
    dated that day. *)
Theorem one_day_range (df : DataFrame) (f : FilterSpec) (r : Row) :
  start_date f = end_date f ->
  In r (df_filtered df f) -> Date r = start_date f.
Proof.
  intros Hsame Hr. apply filter_In in Hr. destruct Hr as [_ Hr].
  apply row_mask_iff in Hr.
  destruct Hr as (_ & _ & _ & _ & _ & Hs & He).
  rewrite <- Hsame in He. now apply ts_le_antisym.
Qed.

Lemma wider_mask (f g : FilterSpec) (r : Row) :
  wider f g -> row_mask f r = true -> row_mask g r = true.
Proof.
  intros (Hr & Hc & Hs & Hy & Hq & Hlo & Hhi). rewrite !row_mask_iff.
  unfold satisfies. intros (H1 & H2 & H3 & H4 & H5 & H6 & H7).
  repeat split; auto.
  - eapply ts_le_trans; eassumption.
  - eapply ts_le_trans; eassumption.
Qed.

(** X6. Widening the selections (more values in a list, an earlier start
    or a later end) never loses a row: the narrower view is an
    order-preserving subsequence of the wider one. *)
Theorem wider_selection_keeps_more (df : DataFrame) (f g : FilterSpec) :
  wider f g -> subseq (df_filtered df f) (df_filtered df g).
Proof.
  intros Hw. apply select_weaken. intros r. now apply wider_mask.
Qed.

(** X7. Two selections can be applied in either order: filtering by one
    and then by the other keeps the rows that meet both. *)
Theorem filters_commute (df : DataFrame) (f g : FilterSpec) :
  df_filtered (df_filtered df f) g = df_filtered (df_filtered df g) f /\
  (forall r, In r (df_filtered (df_filtered df f) g) <->
             In r df /\ satisfies f r /\ satisfies g r).
Proof.
  unfold df_filtered. rewrite !select_select. split.
  - unfold select. apply filter_ext. intros r. apply andb_comm.
  - intros r. unfold select.
    rewrite filter_In, andb_true_iff, !row_mask_iff. tauto.
Qed.

(** X8. Every row the filter keeps has its Year between the year of the
    start date and the year of the end date, for a dataset that comes out
    of the loader. *)
Theorem kept_year_within_range (csv : list RawRow) (f : FilterSpec)
  (r : Row) :
  In r (df_filtered (load_data csv) f) ->
  ts_year (start_date f) <= Year r <= ts_year (end_date f).
Proof.
  intros Hr. apply filter_In in Hr. destruct Hr as [Hin Hm].
  apply row_mask_iff in Hm.
  destruct Hm as (_ & _ & _ & _ & _ & Hs & He).
  unfold load_data in Hin. apply in_map_iff in Hin.
  destruct Hin as [raw [<- _]]. simpl in *. unfold dt_year.
  split; now apply ts_le_year.
Qed.


(** * Scalar KPIs under filtering *)



Lemma filter_length_le {A : Type} (p : A -> bool) (l : list A) :
  (List.length (filter p l) <= List.length l)%nat.
Proof.
  induction l as [|x l IH]; simpl; [lia|]. destruct (p x); simpl; lia.
Qed.

Section DistinctCounts.
Context {K : Type} `{Key K} `{Cell K}.

Lemma unique_length_le (col : list K) :
  (List.length (unique col) <= List.length col)%nat.
Proof.
  induction col as [|x col IH]; simpl; [lia|].
  pose proof (filter_length_le (fun y => negb (keqb x y)) (unique col)).
  lia.
Qed.

Lemma unique_NoDup_id (col : list K) : NoDup col -> unique col = col.
Proof.
  induction 1 as [|x col Hnotin Hnd IH]; simpl; [reflexivity|].
  rewrite IH. f_equal.
  rewrite <- (filter_true col) at 2. apply filter_ext_in.
  intros y Hy. apply negb_true_iff, keqb_neq. congruence.
Qed.

Lemma unique_full_NoDup (col : list K) :
  List.length (unique col) = List.length col -> NoDup col.
Proof.
  induction col as [|x col IH]; simpl; intros Hlen.
  - constructor.
  - pose proof (filter_length_le (fun y => negb (keqb x y)) (unique col)).
    pose proof (unique_length_le col) as Hle.
    assert (Hu : List.length (unique col) = List.length col) by lia.
    assert (Hf : List.length (filter (fun y => negb (keqb x y)) (unique col))
                 = List.length (unique col)) by lia.
    constructor; [|now apply IH].
    intros Hin. apply unique_In in Hin.
    apply filter_length_forallb in Hf. rewrite forallb_forall in Hf.
    specialize (Hf x Hin). rewrite keqb_refl in Hf. discriminate.
Qed.

Lemma nunique_le_length (col : list K) :
  (nunique col <= List.length col)%nat.
Proof.
  unfold nunique.
  pose proof (unique_length_le (dropna col)).
  pose proof (filter_length_le (fun x => negb (isna x)) col) as Hd.
  fold (dropna col) in Hd. lia.
Qed.


(** Every cell counts exactly when none is missing and none repeats. *)
Lemma nunique_full_iff (col : list K) :
  nunique col = List.length col <->
  NoDup col /\ (forall x, In x col -> isna x = false).
Proof.
  unfold nunique. split.
  - intros Hlen.
    pose proof (unique_length_le (dropna col)) as H1.
    pose proof (filter_length_le (fun x => negb (isna x)) col) as H2.
    fold (dropna col) in H2.
    assert (Hd : List.length (dropna col) = List.length col) by lia.
    assert (Hall : forall x, In x col -> isna x = false).
    { unfold dropna in Hd. apply filter_length_forallb in Hd.
      rewrite forallb_forall in Hd. intros x Hx.
      apply negb_true_iff. now apply Hd. }
    split; [|assumption].
    rewrite (dropna_all col Hall) in Hlen. now apply unique_full_NoDup.
  - intros [Hnd Hall]. rewrite (dropna_all col Hall).
    now rewrite unique_NoDup_id.
Qed.
End DistinctCounts.

(** X9. The number of orders counts the distinct OrderIDs that are
    present: it never exceeds the number of rows, and equals it exactly
    when no OrderID occurs twice and no row lacks its OrderID. *)
Theorem total_orders_counts_distinct (view : DataFrame) :
  (total_orders view <= List.length view)%nat /\
  (total_orders view = List.length view <->
   NoDup (map OrderID view) /\ ~ In "" (map OrderID view)).
Proof.
  unfold total_orders. rewrite <- (length_map OrderID view). split.
  - apply nunique_le_length.
  - rewrite nunique_full_iff. split; intros [Hnd Hna]; split;
      try assumption.
    + intros Hin. specialize (Hna "" Hin). discriminate.
    + intros x Hx. apply string_present. intros ->. contradiction.
Qed.





(** * More on the aggregation tables *)

Section GroupTables.
Context {K : Type} `{Key K} `{Cell K}.
Variable key : Row -> K.

Lemma groupby_sum_length (view : DataFrame) :
  List.length (groupby_sum key TotalRevenue view) = nunique (map key view).
Proof.
  unfold groupby_sum, nunique. rewrite length_map.
  apply Permutation_length, sort_keys_perm.
Qed.

(** The table is empty exactly when no row of the view has its key. *)
Lemma groupby_sum_nil_iff (view : DataFrame) :
  groupby_sum key TotalRevenue view = [] <->
  (forall r, In r view -> isna (key r) = true).
Proof.
  split.
  - intros Hnil r Hr. destruct (isna (key r)) eqn:Hna; [reflexivity|].
    assert (Hin : In (key r, sum (map TotalRevenue (group_rows key (key r) view)))
                     (groupby_sum key TotalRevenue view)).
    { apply groupby_sum_In. split; [now apply in_map | tauto]. }
    rewrite Hnil in Hin. destruct Hin.
  - intros Hall.
    destruct (groupby_sum key TotalRevenue view) as [|[k v] t] eqn:Hg;
      [reflexivity|].
    assert (Hin : In (k, v) (groupby_sum key TotalRevenue view))
      by (rewrite Hg; now left).
    apply groupby_sum_In in Hin. destruct Hin as (Hk & Hna & _).
    apply in_map_iff in Hk. destruct Hk as [r [<- Hr]].
    rewrite (Hall r Hr) in Hna. discriminate.
Qed.

Lemma groupby_sum_keys_NoDup (view : DataFrame) :
  NoDup (map fst (groupby_sum key TotalRevenue view)).
Proof.
  rewrite groupby_sum_keys. apply group_keys_NoDup.
Qed.

End GroupTables.

(** X12. Each of the three plain group-by tables holds one row for each
    key that is present in the view, and nothing else; the row's value
    is the 64-bit sum of TotalRevenue over the rows of the view with
    that key. *)
Theorem groupby_tables_rows (view : DataFrame) :
  (forall k v, In (k, v) (category_rev view) <->
     In k (map Category view) /\ isna k = false /\
     v = sum (map TotalRevenue (group_rows Category k view))) /\
  NoDup (map fst (category_rev view)) /\
  (forall k v, In (k, v) (segment_rev view) <->
     In k (map CustomerSegment view) /\ isna k = false /\
     v = sum (map TotalRevenue (group_rows CustomerSegment k view))) /\
  NoDup (map fst (segment_rev view)) /\
  (forall k v, In (k, v) (monthly_region view) <->
     In k (map (fun r => (Month r, Region r)) view) /\ isna k = false /\
     v = sum (map TotalRevenue
                (group_rows (fun r => (Month r, Region r)) k view))) /\
  NoDup (map fst (monthly_region view)).
Proof.
  unfold category_rev, segment_rev, monthly_region.
  repeat match goal with |- _ /\ _ => split end;
    try apply groupby_sum_keys_NoDup; intros k v; apply groupby_sum_In.
Qed.


Lemma string_isna_all (key : Row -> string) (view : DataFrame) :
  (forall r, In r view -> isna (key r) = true) <->
  (forall r, In r view -> key r = "").
Proof.
  split; intros Hall r Hr; apply string_isna; now apply Hall.
Qed.

Lemma top_nil_iff (key : Row -> string) (view : DataFrame) :
  head 10 (sort_values_desc snd (groupby_sum key TotalRevenue view)) = []
  <-> (forall r, In r view -> key r = "").
Proof.
  rewrite <- (string_isna_all key view), <- (groupby_sum_nil_iff key view).
  split; [|intros ->; reflexivity].
  intros Hnil.
  destruct (sort_values_desc snd (groupby_sum key TotalRevenue view))
    as [|p l] eqn:Hs; [|discriminate].
  pose proof (sort_values_desc_perm snd
                (groupby_sum key TotalRevenue view)) as Hp.
  rewrite Hs in Hp. now apply Permutation_nil in Hp.
Qed.

Section ValueCounts.
Context {K : Type} `{Key K} `{Cell K}.

Lemma keqb_sym (x y : K) : keqb x y = keqb y x.
Proof.
  destruct (keqb_spec x y) as [->|Hne].
  - now rewrite keqb_refl.
  - symmetry. apply keqb_neq. congruence.
Qed.

Lemma exact_sum_ones {A : Type} (l : list A) :
  exact_sum (map (fun _ => 1) l) = Z.of_nat (List.length l).
Proof.
  induction l as [|a l IH]; [reflexivity|].
  change (exact_sum (map (fun _ => 1) (a :: l)))
    with (1 + exact_sum (map (fun _ : A => 1) l)).
  change (List.length (a :: l)) with (S (List.length l)).
  rewrite IH, Nat2Z.inj_succ. lia.
Qed.

Lemma value_counts_In (col : list K) (k : K) (n : Z) :
  In (k, n) (value_counts col) <->
  In k col /\ isna k = false /\
  n = Z.of_nat (List.length (filter (keqb k) col)).
Proof.
  unfold value_counts. split.
  - intros Hin.
    apply (Permutation_in _ (sort_values_desc_perm snd _)) in Hin.
    apply in_map_iff in Hin. destruct Hin as [k' [[= <- <-] Hk']].
    apply unique_In, dropna_In in Hk'. tauto.
  - intros (Hin & Hna & ->).
    apply (Permutation_in _ (Permutation_sym (sort_values_desc_perm snd _))).
    apply in_map_iff. exists k. split; [reflexivity|].
    apply unique_In, dropna_In. tauto.
Qed.

Lemma value_counts_keys (col : list K) :
  Permutation (map fst (value_counts col)) (unique (dropna col)).
Proof.
  unfold value_counts.
  rewrite (Permutation_map fst (sort_values_desc_perm snd _)).
  rewrite map_map. simpl. now rewrite map_id.
Qed.

Lemma present_count (k : K) (col : list K) :
  isna k = false ->
  filter (keqb k) (dropna col) = filter (keqb k) col.
Proof.
  intros Hna. unfold dropna. induction col as [|x col IH]; simpl;
    [reflexivity|].
  destruct (isna x) eqn:Hx; simpl.
  - destruct (keqb_spec k x) as [->|_]; [congruence | assumption].
  - now rewrite IH.
Qed.

(** The counts add up to the number of cells that are present. *)
Lemma value_counts_total (col : list K) :
  exact_sum (map snd (value_counts col)) =
  Z.of_nat (List.length (dropna col)).
Proof.
  unfold value_counts.
  rewrite (exact_sum_perm _ _
             (Permutation_map snd (sort_values_desc_perm snd _))).
  rewrite map_map. simpl.
  transitivity
    (exact_sum (map (fun k => exact_sum (map (fun _ : K => 1)
                               (group_rows (fun x => x) k (dropna col))))
                    (unique (dropna col)))).
  - f_equal. apply map_ext_in. intros k Hk. rewrite exact_sum_ones.
    apply unique_In, dropna_In in Hk. destruct Hk as [_ Hna].
    rewrite <- (present_count k col Hna).
    do 2 f_equal. unfold group_rows. apply filter_ext. intros x.
    apply keqb_sym.
  - rewrite exact_group_sums by apply unique_NoDup.
    rewrite exact_sum_ones. do 2 f_equal.
    rewrite <- (filter_true (dropna col)) at 2. apply filter_ext_in.
    intros x Hx. apply isin_In. now apply unique_In.
Qed.

Lemma value_counts_nil_iff (col : list K) :
  value_counts col = [] <-> (forall x, In x col -> isna x = true).
Proof.
  split.
  - intros Hnil x Hx. destruct (isna x) eqn:Hna; [reflexivity|].
    assert (Hin : In (x, Z.of_nat (List.length (filter (keqb x) col)))
                     (value_counts col))
      by (apply value_counts_In; tauto).
    rewrite Hnil in Hin. destruct Hin.
  - intros Hall. destruct (value_counts col) as [|[k n] t] eqn:Hv;
      [reflexivity|].
    assert (Hin : In (k, n) (value_counts col)) by (rewrite Hv; now left).
    apply value_counts_In in Hin. destruct Hin as (Hk & Hna & _).
    rewrite (Hall k Hk) in Hna. discriminate.
Qed.
End ValueCounts.

(** X14. A table is empty exactly when no row of the view has the key
    the table groups by: every plain group-by table, the two top-10
    tables and the payment counts are empty on the empty view, and also
    on a view whose rows all lack that key. *)
Theorem tables_empty_iff (view : DataFrame) :
  (monthly_region view = [] <->
   forall r, In r view -> Month r = "" \/ Region r = "") /\
  (category_rev view = [] <-> forall r, In r view -> Category r = "") /\
  (segment_rev view = [] <->
   forall r, In r view -> CustomerSegment r = "") /\
  (top_products view = [] <-> forall r, In r view -> Product r = "") /\
  (store_rev view = [] <-> forall r, In r view -> Store r = "") /\
  (payment_counts view = [] <->
   forall r, In r view -> PaymentMethod r = "").
Proof.
  unfold monthly_region, category_rev, segment_rev, top_products, store_rev.
  repeat match goal with |- _ /\ _ => split end;
    try apply top_nil_iff;
    try (rewrite groupby_sum_nil_iff; apply string_isna_all).
  - rewrite groupby_sum_nil_iff. split; intros Hall r Hr.
    + specialize (Hall r Hr). simpl in Hall. apply orb_true_iff in Hall.
      destruct Hall as [Hm|Hg]; [left | right]; now apply String.eqb_eq.
    + simpl. apply orb_true_iff.
      destruct (Hall r Hr) as [Hm|Hg]; [left | right];
        now apply String.eqb_eq.
  - unfold payment_counts. rewrite value_counts_nil_iff. split.
    + intros Hall r Hr. apply string_isna. apply Hall. now apply in_map.
    + intros Hall x Hx. apply in_map_iff in Hx.
      destruct Hx as [r [<- Hr]]. apply string_isna. now apply Hall.
Qed.



(** X17. The payment table holds one row for each payment method that is
    present in the view and nothing else; the count of a method is the
    number of rows that carry it, which is at least 1; the counts add up
    to the number of rows whose payment method is present, which is the
    number of rows of the view (the figure of the footer) when no row
    lacks its payment method. *)
Theorem payment_counts_rows (view : DataFrame) :
  (forall k n, In (k, n) (payment_counts view) <->
     In k (map PaymentMethod view) /\ k <> "" /\
     n = Z.of_nat (List.length
           (filter (fun r => String.eqb k (PaymentMethod r)) view))) /\
  (forall k n, In (k, n) (payment_counts view) -> 1 <= n) /\
  NoDup (map fst (payment_counts view)) /\
  exact_sum (map snd (payment_counts view)) =
    Z.of_nat (List.length (with_key PaymentMethod view)) /\
  ((forall r, In r view -> PaymentMethod r <> "") ->
   exact_sum (map snd (payment_counts view)) =
     Z.of_nat (List.length view)).
Proof.
  unfold payment_counts.
  assert (Hcount : forall k,
            List.length (filter (keqb k) (map PaymentMethod view)) =
            List.length
              (filter (fun r => String.eqb k (PaymentMethod r)) view)).
  { intros k. induction view as [|r view IH]; simpl in *; [reflexivity|].
    destruct (String.eqb k (PaymentMethod r)); simpl; now rewrite IH. }
  assert (Htotal : exact_sum (map snd (value_counts (map PaymentMethod view)))
                   = Z.of_nat (List.length (with_key PaymentMethod view))).
  { rewrite value_counts_total, dropna_map, length_map. reflexivity. }
  repeat match goal with |- _ /\ _ => split end.
  - intros k n. rewrite value_counts_In, Hcount, string_present.
    reflexivity.
  - intros k n Hin. apply value_counts_In in Hin.
    destruct Hin as (Hk & _ & ->).
    assert (Hin : In k (filter (keqb k) (map PaymentMethod view))).
    { apply filter_In. split; [assumption | apply keqb_refl]. }
    destruct (filter (keqb k) (map PaymentMethod view)); [destruct Hin|].
    simpl List.length. lia.
  - apply (Permutation_NoDup (Permutation_sym (value_counts_keys _))).
    apply unique_NoDup.
  - exact Htotal.
  - intros Hall. rewrite Htotal, with_key_all; [reflexivity|].
    intros r Hr. apply string_present. now apply Hall.
Qed.

Lemma StronglySorted_app_cross {A : Type} (R : A -> A -> Prop)
  (l1 l2 : list A) :
  StronglySorted R (l1 ++ l2) ->
  forall a b, In a l1 -> In b l2 -> R a b.
Proof.
  induction l1 as [|x l1 IH]; simpl; intros Hs a b Ha Hb; [destruct Ha|].
  apply StronglySorted_inv in Hs. destruct Hs as [Hs Hall].
  destruct Ha as [<-|Ha].
  - rewrite Forall_forall in Hall. apply Hall, in_or_app. now right.
  - now apply IH.
Qed.

Section TopTables.
Variable key : Row -> string.

Let table (view : DataFrame) : list (string * Z) :=
  groupby_sum key TotalRevenue view.

Let top10 (view : DataFrame) : list (string * Z) :=
  head 10 (sort_values_desc snd (table view)).

Lemma top10_length (view : DataFrame) :
  List.length (top10 view) = Nat.min 10 (nunique (map key view)).
Proof.
  unfold top10, head. rewrite length_firstn. f_equal.
  rewrite (Permutation_length (sort_values_desc_perm snd (table view))).
  apply groupby_sum_length.
Qed.

Lemma top10_maximal (view : DataFrame) (a b : string * Z) :
  In a (top10 view) -> In b (table view) -> ~ In b (top10 view) ->
  snd b <= snd a.
Proof.
  intros Ha Hb Hnb.
  pose proof (sort_values_desc_sorted snd (table view)) as Hs.
  rewrite <- (firstn_skipn 10 (sort_values_desc snd (table view))) in Hs.
  apply Z.ge_le.
  apply (StronglySorted_app_cross _ _ _ Hs a b Ha).
  apply (Permutation_in _
           (Permutation_sym (sort_values_desc_perm snd (table view)))) in Hb.
  rewrite <- (firstn_skipn 10 (sort_values_desc snd (table view))) in Hb.
  apply in_app_or in Hb. destruct Hb as [Hb|Hb]; [contradiction|assumption].
Qed.



End TopTables.

(** X18. The top products and the top stores list 10 entries, or as many
    as the view has distinct products (stores) when that is fewer. *)
Theorem top_tables_length (view : DataFrame) :
  List.length (top_products view) =
    Nat.min 10 (nunique (map Product view)) /\
  List.length (store_rev view) = Nat.min 10 (nunique (map Store view)).
Proof.
  split; apply top10_length.
Qed.

(** X19. The top-10 tables keep the largest sums: a product (store) left
    out of the table has a summed revenue no larger than that of any
    entry of the table. *)
Theorem top_tables_keep_largest (view : DataFrame) :
  (forall a b, In a (top_products view) ->
     In b (groupby_sum Product TotalRevenue view) ->
     ~ In b (top_products view) -> snd b <= snd a) /\
  (forall a b, In a (store_rev view) ->
     In b (groupby_sum Store TotalRevenue view) ->
     ~ In b (store_rev view) -> snd b <= snd a).
Proof.
  split; intros a b; apply top10_maximal.
Qed.


(** * Month labels *)

Lemma digit_code (d : Z) :
  N_of_ascii (digit d) = N.of_nat (48 + Z.to_nat (d mod 10)).
Proof.
  unfold digit, ascii_of_nat. apply N_ascii_embedding.
  pose proof (Z.mod_pos_bound d 10 ltac:(lia)). lia.
Qed.

Lemma digit_compare (p q : Z) :
  Ascii.compare (digit p) (digit q) = (p mod 10 ?= q mod 10).
Proof.
  unfold Ascii.compare. rewrite !digit_code.
  pose proof (Z.mod_pos_bound p 10 ltac:(lia)).
  pose proof (Z.mod_pos_bound q 10 ltac:(lia)).
  destruct (Z.compare_spec (p mod 10) (q mod 10));
    [apply N.compare_eq_iff | apply N.compare_lt_iff
     | apply N.compare_gt_iff]; lia.
Qed.

Lemma string_compare_cons (a b : ascii) (s t : string) :
  String.compare (String a s) (String b t) =
  cmp_then (Ascii.compare a b) (String.compare s t).
Proof.
  simpl. destruct (Ascii.compare a b); reflexivity.
Qed.

Lemma lex2_compare (x y : Z) :
  0 <= x < 100 -> 0 <= y < 100 ->
  cmp_then ((x / 10) mod 10 ?= (y / 10) mod 10) (x mod 10 ?= y mod 10)
  = (x ?= y).
Proof.
  intros Hx Hy. symmetry.
  destruct (Z.compare_spec ((x / 10) mod 10) ((y / 10) mod 10)); simpl;
    [destruct (Z.compare_spec (x mod 10) (y mod 10))| |];
    [apply Z.compare_eq_iff | apply Z.compare_lt_iff
     | apply Z.compare_gt_iff | apply Z.compare_lt_iff
     | apply Z.compare_gt_iff];
    Z.div_mod_to_equations; lia.
Qed.

Lemma lex4_compare (x y : Z) :
  0 <= x < 10000 -> 0 <= y < 10000 ->
  cmp_then ((x / 1000) mod 10 ?= (y / 1000) mod 10)
    (cmp_then ((x / 100) mod 10 ?= (y / 100) mod 10)
       (cmp_then ((x / 10) mod 10 ?= (y / 10) mod 10)
          (x mod 10 ?= y mod 10)))
  = (x ?= y).
Proof.
  intros Hx Hy. symmetry.
  destruct (Z.compare_spec ((x / 1000) mod 10) ((y / 1000) mod 10)); simpl;
    [destruct (Z.compare_spec ((x / 100) mod 10) ((y / 100) mod 10)); simpl;
      [destruct (Z.compare_spec ((x / 10) mod 10) ((y / 10) mod 10)); simpl;
        [destruct (Z.compare_spec (x mod 10) (y mod 10))| |] | |] | |];
    first [apply Z.compare_eq_iff | apply Z.compare_lt_iff
          | apply Z.compare_gt_iff];
    Z.div_mod_to_equations; lia.
Qed.

Lemma period_M_str_compare (a b : Timestamp) :
  four_digit_year a -> four_digit_year b ->
  valid_month a -> valid_month b ->
  String.compare (period_M_str a) (period_M_str b) =
  cmp_then (ts_year a ?= ts_year b) (ts_month a ?= ts_month b).
Proof.
  unfold four_digit_year, valid_month, period_M_str, pad4, pad2.
  intros Ha Hb Hma Hmb. cbn [append].
  rewrite !string_compare_cons, !digit_compare.
  change (Ascii.compare "-" "-") with Eq. cbn [String.compare].
  rewrite <- (lex4_compare (ts_year a) (ts_year b)) by lia.
  rewrite <- (lex2_compare (ts_month a) (ts_month b)) by lia.
  destruct ((ts_year a / 1000) mod 10 ?= (ts_year b / 1000) mod 10);
    simpl; try reflexivity.
  destruct ((ts_year a / 100) mod 10 ?= (ts_year b / 100) mod 10);
    simpl; try reflexivity.
  destruct ((ts_year a / 10) mod 10 ?= (ts_year b / 10) mod 10);
    simpl; try reflexivity.
  destruct (ts_year a mod 10 ?= ts_year b mod 10); simpl; try reflexivity.
  destruct ((ts_month a / 10) mod 10 ?= (ts_month b / 10) mod 10);
    simpl; try reflexivity.
  destruct (ts_month a mod 10 ?= ts_month b mod 10); reflexivity.
Qed.

Lemma cmp_then_Eq (c d : comparison) : cmp_then c d = Eq -> c = Eq /\ d = Eq.
Proof. destruct c; simpl; intros; [tauto | discriminate | discriminate]. Qed.

(** X22. The Month labels sort like the calendar: for two loaded rows
    with four-digit years and calendar months, comparing the labels as
    strings gives the comparison of the years and, within a year, of the
    months.  The rows of the monthly table, sorted by label, are
    therefore in chronological order. *)
Theorem month_labels_chronological (csv : list RawRow) (r1 r2 : Row) :
  In r1 (load_data csv) -> In r2 (load_data csv) ->
  four_digit_year (Date r1) -> four_digit_year (Date r2) ->
  valid_month (Date r1) -> valid_month (Date r2) ->
  String.compare (Month r1) (Month r2) =
  cmp_then (Year r1 ?= Year r2)
           (ts_month (Date r1) ?= ts_month (Date r2)).
Proof.
  unfold load_data. intros H1 H2.
  apply in_map_iff in H1. destruct H1 as [raw1 [<- _]].
  apply in_map_iff in H2. destruct H2 as [raw2 [<- _]].
  cbn [derive Month Year Date]. unfold dt_year.
  apply period_M_str_compare.
Qed.

(** X23. The derived columns never disagree: two loaded rows with the
    same Month label have the same Year and the same Quarter. *)
Theorem same_month_same_year_quarter (csv : list RawRow) (r1 r2 : Row) :
  In r1 (load_data csv) -> In r2 (load_data csv) ->
  four_digit_year (Date r1) -> four_digit_year (Date r2) ->
  valid_month (Date r1) -> valid_month (Date r2) ->
  Month r1 = Month r2 ->
  Year r1 = Year r2 /\ Quarter r1 = Quarter r2.
Proof.
  unfold load_data. intros H1 H2.
  apply in_map_iff in H1. destruct H1 as [raw1 [<- _]].
  apply in_map_iff in H2. destruct H2 as [raw2 [<- _]].
  cbn [derive Month Year Quarter Date]. intros Hy1 Hy2 Hm1 Hm2 Heq.
  pose proof (period_M_str_compare _ _ Hy1 Hy2 Hm1 Hm2) as Hc.
  rewrite Heq, string_compare_refl in Hc. symmetry in Hc.
  apply cmp_then_Eq in Hc. destruct Hc as [Hy Hm].
  apply Z.compare_eq_iff in Hy, Hm.
  unfold dt_year, dt_quarter. rewrite Hm. tauto.
Qed.

(** * Number formatting *)

Lemma digits_no_comma (d : Decimal.uint) :
  Forall (fun c => Ascii.eqb c ","%char = false)
         (list_ascii_of_string (NilEmpty.string_of_uint d)).
Proof.
  induction d; simpl; constructor; auto.
Qed.

Lemma str_of_N_no_comma (n : N) :
  Forall (fun c => Ascii.eqb c ","%char = false)
         (list_ascii_of_string (str_of_N n)).
Proof.
  unfold str_of_N, NilZero.string_of_uint.
  destruct (N.to_uint n); try apply digits_no_comma.
  repeat constructor.
Qed.

Lemma group3_strip (l : list ascii) :
  filter (fun c => negb (Ascii.eqb c ","%char)) (group3 l) =
  filter (fun c => negb (Ascii.eqb c ","%char)) l.
Proof.
  assert (Hgen : forall n l, (List.length l <= n)%nat ->
            filter (fun c => negb (Ascii.eqb c ","%char)) (group3 l) =
            filter (fun c => negb (Ascii.eqb c ","%char)) l).
  { clear l. induction n as [|n IH]; intros l Hlen.
    - destruct l; [reflexivity | simpl in Hlen; lia].
    - destruct l as [|a [|b [|c [|d rest]]]]; try reflexivity.
      change (group3 (a :: b :: c :: d :: rest))
        with (a :: b :: c :: ","%char :: group3 (d :: rest)).
      simpl in Hlen.
      cbn [filter]. rewrite (IH (d :: rest)) by (simpl; lia).
      change (Ascii.eqb "," ",") with true. reflexivity. }
  now apply (Hgen (List.length l)).
Qed.

Lemma filter_keep_all {A : Type} (p : A -> bool) (l : list A) :
  Forall (fun x => p x = true) l -> filter p l = l.
Proof.
  induction 1 as [|x l Hx Hl IH]; simpl; [reflexivity|].
  now rewrite Hx, IH.
Qed.

Lemma strip_fmt (n : N) : strip_commas (fmt_thousands n) = str_of_N n.
Proof.
  unfold strip_commas, fmt_thousands.
  rewrite list_ascii_of_string_of_list_ascii, filter_rev, group3_strip,
    <- filter_rev, rev_involutive.
  rewrite filter_keep_all.
  - apply string_of_list_ascii_of_string.
  - eapply Forall_impl; [|apply str_of_N_no_comma].
    simpl. intros c ->. reflexivity.
Qed.

Lemma read_str_of_N (n : N) : read_N (str_of_N n) = Some n.
Proof.
  unfold read_N, str_of_N. rewrite NilZero.usu.
  - simpl. now rewrite DecimalN.Unsigned.of_to.
  - destruct n; simpl; [discriminate|].
    apply DecimalPos.Unsigned.to_uint_nonnil.
Qed.

(** X24. The grouped figures of the orders card and of the footer read
    back as the numbers they show: dropping the separators and reading
    the digits gives the number of distinct orders, respectively the
    number of rows of the view. *)
Theorem grouped_figures_round_trip (view : DataFrame) :
  read_N (strip_commas (metric_total_orders view)) =
    Some (N.of_nat (total_orders view)) /\
  read_N (strip_commas (footer_data_points view)) =
    Some (N.of_nat (List.length view)).
Proof.
  unfold metric_total_orders, footer_data_points.
  rewrite !strip_fmt, !read_str_of_N. split; reflexivity.
Qed.

(** * Further instances on the sample data *)


Lemma first_run_shows_everything_witness :
  min_date sample_df = Some sample_lo /\
  max_date sample_df = Some sample_hi /\
  df_filtered sample_df
    (spec_of (initial_widgets sample_df true true true sample_lo sample_hi)
       sample_lo sample_hi) = sample_df.
Proof.
  split; [reflexivity|]. split; [reflexivity|].
  apply (first_run_shows_everything sample_df sample_lo sample_hi);
    reflexivity.
Defined.

Lemma first_run_unticked_shows_nothing_witness :
  df_filtered sample_df
    (spec_of (initial_widgets sample_df true false true sample_lo sample_hi)
       sample_lo sample_hi) = [].
Proof.
  apply (first_run_unticked_shows_nothing sample_df true false true).
  right. left. reflexivity.
Defined.

Lemma start_only_range_witness :
  In sample_row_late
     (df_filtered sample_df
        (spec_of (mkWidgets ["Europe"] ["iPhone"; "Mac"]
                    ["Consumer"; "Business"] [mkTimestamp 2024 6 1]
                    [2024] [1; 2; 3; 4]) sample_lo sample_hi)).
Proof.
  apply (start_only_range sample_df
           (mkWidgets ["Europe"] ["iPhone"; "Mac"] ["Consumer"; "Business"]
              [mkTimestamp 2024 6 1] [2024] [1; 2; 3; 4])
           (mkTimestamp 2024 6 1) sample_lo sample_hi sample_row_late);
    [reflexivity | reflexivity |].
  simpl. unfold ts_le. simpl. intuition discriminate.
Defined.

Lemma empty_range_is_no_date_filter_witness :
  In sample_row
     (df_filtered sample_df
        (spec_of (mkWidgets ["Europe"] ["iPhone"; "Mac"]
                    ["Consumer"; "Business"] [] [2024] [1; 2; 3; 4])
           sample_lo sample_hi)).
Proof.
  apply (empty_range_is_no_date_filter sample_df
           (mkWidgets ["Europe"] ["iPhone"; "Mac"] ["Consumer"; "Business"]
              [] [2024] [1; 2; 3; 4]) sample_lo sample_hi sample_row);
    [reflexivity | reflexivity | reflexivity |].
  simpl. intuition.
Defined.

Lemma one_day_range_witness :
  In sample_row (df_filtered sample_df one_day_spec) /\
  Date sample_row = start_date one_day_spec.
Proof.
  assert (Hin : In sample_row (df_filtered sample_df one_day_spec))
    by (simpl; left; reflexivity).
  split; [exact Hin|].
  exact (one_day_range sample_df one_day_spec sample_row eq_refl Hin).
Defined.

Lemma wider_selection_keeps_more_witness :
  wider one_day_spec sample_spec /\
  subseq (df_filtered sample_df one_day_spec)
         (df_filtered sample_df sample_spec).
Proof.
  assert (Hw : wider one_day_spec sample_spec).
  { unfold wider. simpl. repeat split; try apply incl_refl;
      unfold ts_le; simpl; discriminate. }
  split; [exact Hw|].
  exact (wider_selection_keeps_more sample_df one_day_spec sample_spec Hw).
Defined.

Lemma kept_year_within_range_witness :
  In sample_row (df_filtered (load_data sample_csv) sample_spec) /\
  ts_year (start_date sample_spec) <= Year sample_row
    <= ts_year (end_date sample_spec).
Proof.
  assert (Hin : In sample_row (df_filtered (load_data sample_csv) sample_spec))
    by (simpl; left; reflexivity).
  split; [exact Hin|].
  exact (kept_year_within_range sample_csv sample_spec sample_row Hin).
Defined.





Lemma sample_rows_loaded :
  In sample_row (load_data sample_csv) /\
  In sample_row_late (load_data sample_csv).
Proof.
  split; simpl; [left | right; left]; reflexivity.
Qed.

Lemma sample_rows_in_range :
  four_digit_year (Date sample_row) /\
  four_digit_year (Date sample_row_late) /\
  valid_month (Date sample_row) /\ valid_month (Date sample_row_late).
Proof.
  unfold four_digit_year, valid_month. simpl. lia.
Qed.

Lemma month_labels_chronological_witness :
  String.compare (Month sample_row) (Month sample_row_late) = Lt.
Proof.
  destruct sample_rows_loaded as [H1 H2].
  destruct sample_rows_in_range as (Y1 & Y2 & M1 & M2).
  rewrite (month_labels_chronological sample_csv sample_row sample_row_late
             H1 H2 Y1 Y2 M1 M2).
  reflexivity.
Defined.

Lemma april_rows_loaded :
  In april_row_1 (load_data april_csv) /\
  In april_row_2 (load_data april_csv).
Proof.
  split; simpl; [left | right; left]; reflexivity.
Qed.

Lemma april_rows_in_range :
  four_digit_year (Date april_row_1) /\
  four_digit_year (Date april_row_2) /\
  valid_month (Date april_row_1) /\ valid_month (Date april_row_2).
Proof.
  unfold four_digit_year, valid_month. simpl. lia.
Qed.

Lemma same_month_same_year_quarter_witness :
  april_row_1 <> april_row_2 /\
  Month april_row_1 = Month april_row_2 /\
  Year april_row_1 = Year april_row_2 /\
  Quarter april_row_1 = Quarter april_row_2.
Proof.
  destruct april_rows_loaded as [H1 H2].
  destruct april_rows_in_range as (Y1 & Y2 & M1 & M2).
  split; [discriminate|]. split; [reflexivity|].
  exact (same_month_same_year_quarter april_csv april_row_1 april_row_2
           H1 H2 Y1 Y2 M1 M2 eq_refl).
Defined.

Lemma top_tables_keep_largest_witness :
  In ("S02", 20) (store_rev stores_df) /\
  In ("S01", 10) (groupby_sum Store TotalRevenue stores_df) /\
  ~ In ("S01", 10) (store_rev stores_df) /\
  snd ("S01", 10) <= snd ("S02", 20).
Proof.
  assert (Hin : In ("S02", 20) (store_rev stores_df))
    by (vm_compute; tauto).
  assert (Hall : In ("S01", 10) (groupby_sum Store TotalRevenue stores_df))
    by (vm_compute; tauto).
  assert (Hout : ~ In ("S01", 10) (store_rev stores_df)).
  { vm_compute. intros H.
    repeat (destruct H as [H|H]; [discriminate H|]). exact H. }
  repeat split; try assumption.
  exact (proj2 (top_tables_keep_largest stores_df) _ _ Hin Hall Hout).
Defined.

